(** * EditorContextMCP: a shallow embedding of [EditorContextMCP.py]

    The plugin has three parts, embedded in this order:
    - [EditorContextState.get_state_snapshot], a pure function of the
      editor's windows and views;
    - [MCPRequestHandler], the HTTP handler with the JSON-RPC dispatcher;
    - [MCPServer], the start/stop life cycle of the listener.

    Python values that travel through [json.loads] / [json.dumps] are
    modelled by the type [json]; Python's [None] is [JNull].  Python
    integers are unbounded, hence [Z]. *)

From Stdlib Require Import ZArith SpecFloat Ascii String.
From stdpp Require Import base decidable option list gmap strings pretty.

Local Set Warnings "-register-all".
Local Open Scope Z_scope.

(** ** JSON values *)

(** What [json.loads] produces and [json.dumps] consumes: [dict] keeps the
    insertion order of its keys, so an object is an association list; a
    number with a fraction or an exponent is a binary64 float. *)
Inductive json : Type :=
| JNull
| JBool (b : bool)
| JInt (n : Z)
| JFloat (f : spec_float)
| JStr (s : string)
| JArr (items : list json)
| JObj (members : list (string * json)).

(** [isinstance(v, dict)] *)
Definition is_dict (v : json) : bool :=
  match v with JObj _ => true | _ => false end.

(** [v == "literal"] for a string literal: values of another type are
    never equal to a [str]. *)
Definition eq_str (v : json) (lit : string) : bool :=
  match v with JStr s => bool_decide (s = lit) | _ => false end.

Fixpoint assoc (key : string) (members : list (string * json)) : option json :=
  match members with
  | [] => None
  | (k, v) :: rest => if bool_decide (k = key) then Some v else assoc key rest
  end.

(** [d.get(key, default)] on a [dict]. *)
Definition dict_get (members : list (string * json)) (key : string)
    (default : json) : json :=
  match assoc key members with Some v => v | None => default end.

(** ** The host editor

    The part of the [sublime] API that [get_state_snapshot] queries. *)
Module Sublime.

(** [sublime.Region]: two text points; [empty()] is [a == b], [begin()]
    and [end()] are the smaller and the larger point. *)
Record Region : Type := { a : Z; b : Z }.

Definition empty (r : Region) : bool := Z.eqb (a r) (b r).
Definition begin (r : Region) : Z := Z.min (a r) (b r).
Definition end_ (r : Region) : Z := Z.max (a r) (b r).

(** [sublime.View]: [file_name()] is [None] for a buffer without a file,
    [sel()] the selection regions, [rowcol(point)] the 0-based row and
    column of a text point. *)
Record View : Type := {
  file_name : option string;
  sel : list Region;
  rowcol : Z → Z * Z
}.

(** [sublime.Window] *)
Record Window : Type := {
  folders : list string;
  active_view : option View;
  views : list View
}.

End Sublime.
Import Sublime.

(** ** EditorContextState *)

(** Truth value of an [Optional[str]]: [None] and the empty string are
    false. *)
Definition truthy (file_name : option string) : bool :=
  match file_name with
  | Some s => negb (bool_decide (s = ""))
  | None => false
  end.

Definition position (row col : Z) : json :=
  JObj [("line", JInt (row + 1)); ("column", JInt col)].

(** Lines 43-65: the selection or cursor of a view. *)
Definition selection_info (view : View) : json :=
  match sel view with
  | [] => JNull
  | region :: _ =>
    if negb (empty region) then
      let '(start_row, start_col) := rowcol view (begin region) in
      let '(end_row, end_col) := rowcol view (end_ region) in
      JObj [("start", position start_row start_col);
            ("end", position end_row end_col)]
    else
      let '(cursor_row, cursor_col) := rowcol view (begin region) in
      JObj [("cursor", position cursor_row cursor_col)]
  end.

(** Lines 68-71. *)
Definition file_obj (file_name : string) (view : View) : json :=
  JObj [("path", JStr file_name); ("selection", selection_info view)].

(** The four local variables of [get_state_snapshot]. *)
Record locals : Type := {
  active_files : list json;
  other_files : list json;
  project_folders : list string;
  seen_files : gset string
}.

Definition initial : locals :=
  {| active_files := []; other_files := []; project_folders := [];
     seen_files := ∅ |}.

(** Lines 29-31, one folder. *)
Definition add_folder (project_folders : list string) (folder : string)
    : list string :=
  if bool_decide (folder ∈ project_folders) then project_folders
  else project_folders ++ [folder].

(** Lines 39-77, the body of the loop over the views of one window. *)
Definition visit_view (active_file_in_window : option string)
    (st : locals) (view : View) : locals :=
  match file_name view with
  | Some name =>
    if truthy (Some name) && negb (bool_decide (name ∈ seen_files st)) then
      let seen := {[name]} ∪ seen_files st in
      if bool_decide (Some name = active_file_in_window) then
        {| active_files := active_files st ++ [file_obj name view];
           other_files := other_files st;
           project_folders := project_folders st;
           seen_files := seen |}
      else
        {| active_files := active_files st;
           other_files := other_files st ++ [file_obj name view];
           project_folders := project_folders st;
           seen_files := seen |}
    else st
  | None => st
  end.

(** Line 35. *)
Definition active_file_in_window (window : Window) : option string :=
  match active_view window with
  | Some view => file_name view
  | None => None
  end.

(** Lines 27-77, the body of the loop over the windows. *)
Definition visit_window (st : locals) (window : Window) : locals :=
  let st1 :=
    {| active_files := active_files st;
       other_files := other_files st;
       project_folders := foldl add_folder (project_folders st) (folders window);
       seen_files := seen_files st |} in
  foldl (visit_view (active_file_in_window window)) st1 (views window).

(** The loop of line 26 over [reversed(sublime.windows())]. *)
Definition collect (windows : list Window) : locals :=
  foldl visit_window initial (reverse windows).

(** [get_state_snapshot]; [now] is [datetime.now().isoformat()]. *)
Definition get_state_snapshot (windows : list Window) (now : string) : json :=
  let st := collect windows in
  JObj [("activeFiles", JArr (active_files st));
        ("otherFiles", JArr (other_files st));
        ("projectFolders", JArr (JStr <$> project_folders st));
        ("lastUpdated", JStr now)].

(** ** Exceptions and the monad of the stateful code *)

(** The exception classes that the modelled code and its libraries raise.
    Every one of them derives from [Exception], so [except Exception]
    catches them all. *)
Inductive exn_class : Type :=
| ValueError | JSONDecodeError | UnicodeDecodeError | AttributeError
| UnboundLocalError | OSError | OverflowError | RuntimeError
| BrokenPipeError.

(** An exception instance; [message] is what [str(e)] returns. *)
Record exn : Type := Exn { class : exn_class; message : string }.

Inductive result (A : Type) : Type :=
| Ok (value : A)
| Raise (e : exn).
Arguments Ok {A} value.
Arguments Raise {A} e.

#[global] Instance result_ret : MRet result := λ A, Ok.
#[global] Instance result_bind : MBind result := λ A B f r,
  match r with Ok x => f x | Raise e => Raise e end.

(** Code that mutates a state [S] and may raise. *)
Definition M (S A : Type) : Type := S → S * result A.

#[global] Instance M_ret {S} : MRet (M S) := λ A x st, (st, Ok x).
#[global] Instance M_bind {S} : MBind (M S) := λ A B f m st,
  match m st with
  | (st', Ok x) => f x st'
  | (st', Raise e) => (st', Raise e)
  end.

Definition lift {S A} (r : result A) : M S A := λ st, (st, r).
Definition get_state {S} : M S S := λ st, (st, Ok st).
Definition modify {S} (f : S → S) : M S unit := λ st, (f st, Ok tt).

(** [try: body except Exception as e: handler(e)]; what [body] did to the
    state before it raised stays done. *)
Definition try_except {S A} (body : M S A) (handler : exn → M S A) : M S A :=
  λ st,
  match body st with
  | (st', Ok x) => (st', Ok x)
  | (st', Raise e) => handler e st'
  end.

(** ** The Python runtime

    Library functions the handler calls and whose results are not decided
    by the plugin: they are parameters of the development.  A [str] and
    its UTF-8 encoding are both a [string], and [str.encode()] is the
    identity. *)
Class PyRuntime : Type := {
  (** [json.loads(s)] *)
  json_loads : string → result json;
  (** [json.dumps(obj, indent=indent)] *)
  json_dumps : option nat → json → string;
  (** [bytes.decode('utf-8')] *)
  decode_utf8 : string → result string;
  (** [int(s)] on a [str] *)
  py_int : string → result Z;
  (** [str(v)] on a [float], a [list] or a [dict] *)
  py_repr : json → string
}.

(** [type(v).__name__] *)
Definition type_name (v : json) : string :=
  match v with
  | JNull => "NoneType"
  | JBool _ => "bool"
  | JInt _ => "int"
  | JFloat _ => "float"
  | JStr _ => "str"
  | JArr _ => "list"
  | JObj _ => "dict"
  end.

(** [v.get]: only a [dict] has the attribute. *)
Definition attr_get (v : json) : result (list (string * json)) :=
  match v with
  | JObj members => Ok members
  | _ => Raise (Exn AttributeError
                  ("'" +:+ type_name v +:+ "' object has no attribute 'get'"))
  end.

Section Handler.
Context `{PyRuntime}.

(** ["{}".format(v)] *)
Definition py_str (v : json) : string :=
  match v with
  | JNull => "None"
  | JBool true => "True"
  | JBool false => "False"
  | JInt n => pretty n
  | JStr s => s
  | _ => py_repr v
  end.

(** *** MCPRequestHandler *)

(** The two host readings a request needs: [sublime.windows()] and the
    clock. *)
Variable windows : list Window.
Variable now : string.

Definition state_uri : string := "sublime-context://state".

(** Lines 204-209. *)
Definition get_resource_content (uri : json) : result string :=
  if eq_str uri state_uri then
    Ok (json_dumps (Some 2%nat) (get_state_snapshot windows now))
  else
    Raise (Exn ValueError ("Unknown resource URI: " +:+ py_str uri)).

Definition initialize_result : json :=
  JObj [("protocolVersion", JStr "2024-11-05");
        ("capabilities", JObj [("resources", JObj [])]);
        ("serverInfo", JObj [("name", JStr "sublime-editor-context");
                             ("version", JStr "0.1.0")])].

Definition resources_list_result : json :=
  JObj [("resources", JArr [
    JObj [("uri", JStr "sublime-context://state");
          ("name", JStr "Editor State");
          ("description", JStr "Complete editor state with active files per window and other open files");
          ("mimeType", JStr "application/json")]])].

Definition success (res request_id : json) : json :=
  JObj [("jsonrpc", JStr "2.0"); ("result", res); ("id", request_id)].

Definition failure (code : Z) (msg : string) (request_id : json) : json :=
  JObj [("jsonrpc", JStr "2.0");
        ("error", JObj [("code", JInt code); ("message", JStr msg)]);
        ("id", request_id)].

(** Lines 138-202. *)
Definition handle_mcp_request (request : json) : result json :=
  members ← attr_get request;
  let method := dict_get members "method" JNull in
  let params := dict_get members "params" (JObj []) in
  let request_id := dict_get members "id" JNull in
  if eq_str method "initialize" then
    Ok (success initialize_result request_id)
  else if eq_str method "resources/list" then
    Ok (success resources_list_result request_id)
  else if eq_str method "resources/read" then
    params_members ← attr_get params;
    let uri := dict_get params_members "uri" JNull in
    content ← get_resource_content uri;
    Ok (success
          (JObj [("contents", JArr [
             JObj [("uri", uri);
                   ("mimeType", JStr "application/json");
                   ("text", JStr content)]])])
          request_id)
  else
    Ok (failure (-32601) ("Method not found: " +:+ py_str method) request_id).

End Handler.

(** ** The transport: one HTTP request *)

(** What reaches the client, in order: the status line and the header
    lines that the handler asks for, the blank line that ends them, and
    the body.  The header lines that [http.server] adds on its own are
    left out. *)
Inductive http_event : Type :=
| SendResponse (code : Z)
| SendHeader (keyword value : string)
| EndHeaders
| WfileWrite (data : string).

(** The request as the handler sees it; [rfile] holds the bytes that the
    client sends after the headers. *)
Record http_request : Type := {
  path : string;
  headers : list (string * string);
  rfile : string
}.

(** The state of one call of [do_POST]: what the socket has taken, the
    local variable [request], unbound until line 117 assigns it, the
    lines that wait in [_headers_buffer], and what the connection does
    with the writes to come, in order: [None] for a write that the
    socket takes, [Some e] for one that raises [e] and delivers
    nothing; past the end of the list every write is taken. *)
Record frame : Type := {
  wfile : list http_event;
  local_request : option json;
  headers_buffer : list http_event;
  pending : list (option exn)
}.

Definition fresh_frame : frame :=
  {| wfile := []; local_request := None; headers_buffer := [];
     pending := [] |}.

(** A write on [self.wfile], the unbuffered file of the socket. *)
Definition socket_write (data : list http_event) : M frame unit :=
  λ fr,
  match pending fr with
  | Some e :: rest =>
    ({| wfile := wfile fr; local_request := local_request fr;
        headers_buffer := headers_buffer fr; pending := rest |}, Raise e)
  | fate =>
    ({| wfile := wfile fr ++ data; local_request := local_request fr;
        headers_buffer := headers_buffer fr; pending := tail fate |}, Ok tt)
  end.

(** [_headers_buffer.append(line)] *)
Definition buffer_line (line : http_event) : M frame unit :=
  modify (λ fr, {| wfile := wfile fr; local_request := local_request fr;
                   headers_buffer := headers_buffer fr ++ [line];
                   pending := pending fr |}).

(** [send_response] and [send_header] only fill the buffer. *)
Definition send_response (code : Z) : M frame unit :=
  buffer_line (SendResponse code).
Definition send_header (keyword value : string) : M frame unit :=
  buffer_line (SendHeader keyword value).

(** [flush_headers]: the buffer goes out in one write and is emptied
    after it; when the write raises the lines stay in the buffer. *)
Definition flush_headers : M frame unit :=
  fr ← get_state;
  socket_write (headers_buffer fr);;
  modify (λ fr, {| wfile := wfile fr; local_request := local_request fr;
                   headers_buffer := []; pending := pending fr |}).

(** [end_headers]: the blank line, then [flush_headers]. *)
Definition end_headers : M frame unit :=
  buffer_line EndHeaders;; flush_headers.

(** [self.wfile.write(data)] *)
Definition wfile_write (data : string) : M frame unit :=
  socket_write [WfileWrite data].

(** [request = value] *)
Definition store_request (value : json) : M frame unit :=
  modify (λ fr, {| wfile := wfile fr; local_request := Some value;
                   headers_buffer := headers_buffer fr;
                   pending := pending fr |}).

(** Reading the local variable [request]; Python raises when no assignment
    has run yet. *)
Definition load_request : M frame json :=
  λ fr,
  match local_request fr with
  | Some value => (fr, Ok value)
  | None =>
    (fr, Raise (Exn UnboundLocalError
                  "local variable 'request' referenced before assignment"))
  end.

Definition lower_ascii (c : ascii) : ascii :=
  let n := nat_of_ascii c in
  if (65 <=? n)%nat && (n <=? 90)%nat then ascii_of_nat (n + 32) else c.

Fixpoint lower (s : string) : string :=
  match s with
  | EmptyString => EmptyString
  | String c rest => String (lower_ascii c) (lower rest)
  end.

(** [self.headers.get(name)]: header names compare without case, the first
    match wins. *)
Fixpoint headers_get (hs : list (string * string)) (name : string)
    : option string :=
  match hs with
  | [] => None
  | (k, v) :: rest =>
    if bool_decide (lower k = lower name) then Some v else headers_get rest name
  end.

(** [self.rfile.read(n)]: at most [n] bytes, all of them when [n] is
    negative. *)
Definition rfile_read (data : string) (n : Z) : string :=
  if n <? 0 then data else substring 0 (Z.to_nat n) data.

Section Transport.
Context `{PyRuntime}.
Variable windows : list Window.
Variable now : string.


(** Lines 116-136, the [try] statement. *)
Definition respond (body : string) : M frame unit :=
  try_except
    (parsed ← lift (json_loads body);
     store_request parsed;;
     request ← load_request;
     response ← lift (handle_mcp_request windows now request);
     send_response 200;;
     send_header "Content-type" "application/json";;
     end_headers;;
     wfile_write (json_dumps None response))
    (λ e,
     tested ← load_request;
     request_id ←
       (if is_dict tested then
          request ← load_request;
          members ← lift (attr_get request);
          mret (dict_get members "id" JNull)
        else mret JNull);
     let error_response := failure (-32603) (message e) request_id in
     send_response 500;;
     send_header "Content-type" "application/json";;
     end_headers;;
     wfile_write (json_dumps None error_response)).

(** Lines 113-114: the body that the request announces, decoded. *)
Definition read_body (r : http_request) : result string :=
  content_length ←
    match headers_get (headers r) "Content-Length" with
    | Some s => py_int s
    | None => Ok 0
    end;
  decode_utf8 (rfile_read (rfile r) content_length).

(** Lines 111-136. *)
Definition do_POST (r : http_request) : M frame unit :=
  body ← lift (read_body r);
  respond body.

(** One POST request, from a fresh frame: what reached the client and
    whether the handler returned or raised. *)
Definition serve_POST (r : http_request) : list http_event * result unit :=
  let '(fr, outcome) := do_POST r fresh_frame in (wfile fr, outcome).

End Transport.

(** ** The listener and its life cycle *)

(** The part of [socket], [socketserver] and [threading] that
    [MCPServer.start] goes through, after CPython's [socketserver.py]. *)
Module Net.

(** A TCP socket: the value of [SO_REUSEADDR] and the address it is
    bound to. *)
Record socket : Type := {
  so_reuseaddr : bool;
  bound_to : option (string * Z);
  listening : bool
}.

(** [socketserver.TCPServer]; [allow_reuse_address] is a class attribute
    with value [False] that an instance may override. *)
Record TCPServer : Type := {
  server_address : string * Z;
  allow_reuse_address : bool;
  sock : socket
}.

(** [threading.Thread] *)
Record Thread : Type := { daemon : bool; alive : bool }.

(** The operating system and the console, as far as [start] can tell:
    ports with a live listener, ports that only have connections of a
    closed listener in teardown, whether a thread can still be
    created, and the lines printed so far. *)
Record os : Type := {
  in_use : list Z;
  in_teardown : list Z;
  threads_left : bool;
  console : list string
}.

Definition print (line : string) : M os unit :=
  modify (λ o, {| in_use := in_use o; in_teardown := in_teardown o;
                  threads_left := threads_left o;
                  console := console o ++ [line] |}).

(** What the kernel does on a bind to port 0: [ephemeral_port o] is the
    port that it hands out in the state [o].  [None], or a port that is
    not vacant, stands for a range that is used up. *)
Class Kernel : Type := { ephemeral_port : os → option Z }.

(** No socket holds the port and it is not in teardown. *)
Definition vacant (o : os) (port : Z) : bool :=
  (1 <=? port) && (port <=? 65535)
  && negb (bool_decide (port ∈ in_use o))
  && negb (bool_decide (port ∈ in_teardown o)).

Definition hold (port : Z) : M os unit :=
  modify (λ o, {| in_use := port :: in_use o; in_teardown := in_teardown o;
                  threads_left := threads_left o; console := console o |}).

(** [socket.bind(address)].  Port 0 asks the kernel for a port of its
    own choice.  Any other port with a live listener is refused; a port
    in teardown is refused unless [SO_REUSEADDR] is set on the socket
    that binds.  [bound_to] is what [getsockname()] returns from then
    on. *)
Definition bind `{Kernel} (s : socket) (address : string * Z) : M os socket :=
  o ← get_state;
  let port := address.2 in
  if (port <? 0) || (65535 <? port) then
    lift (Raise (Exn OverflowError "bind(): port must be 0-65535."))
  else if port =? 0 then
    match ephemeral_port o with
    | Some chosen =>
      if vacant o chosen then
        hold chosen;;
        mret {| so_reuseaddr := so_reuseaddr s;
                bound_to := Some (address.1, chosen);
                listening := listening s |}
      else lift (Raise (Exn OSError "[Errno 98] Address already in use"))
    | None => lift (Raise (Exn OSError "[Errno 98] Address already in use"))
    end
  else if bool_decide (port ∈ in_use o)
          || (bool_decide (port ∈ in_teardown o) && negb (so_reuseaddr s)) then
    lift (Raise (Exn OSError "[Errno 98] Address already in use"))
  else
    hold port;;
    mret {| so_reuseaddr := so_reuseaddr s; bound_to := Some address;
            listening := listening s |}.

(** [TCPServer.server_bind]: the option is set only if
    [allow_reuse_address] is true when the method runs; after the bind
    [server_address] is [socket.getsockname()]. *)
Definition server_bind `{Kernel} (srv : TCPServer) : M os TCPServer :=
  let s0 := sock srv in
  let s1 :=
    if allow_reuse_address srv then
      {| so_reuseaddr := true; bound_to := bound_to s0;
         listening := listening s0 |}
    else s0 in
  s2 ← bind s1 (server_address srv);
  mret {| server_address := default (server_address srv) (bound_to s2);
          allow_reuse_address := allow_reuse_address srv; sock := s2 |}.

(** [TCPServer.server_activate]: [listen]. *)
Definition server_activate (srv : TCPServer) : TCPServer :=
  {| server_address := server_address srv;
     allow_reuse_address := allow_reuse_address srv;
     sock := {| so_reuseaddr := so_reuseaddr (sock srv);
                bound_to := bound_to (sock srv); listening := true |} |}.

(** [TCPServer(server_address, handler)], with [bind_and_activate] at
    its default [True]: the constructor creates the socket, binds it
    and listens.  When binding raises, the socket is closed and the
    exception goes on to the caller, who gets no object. *)
Definition TCPServer_new `{Kernel} (address : string * Z) : M os TCPServer :=
  let srv :=
    {| server_address := address; allow_reuse_address := false;
       sock := {| so_reuseaddr := false; bound_to := None;
                  listening := false |} |} in
  bound ← server_bind srv;
  mret (server_activate bound).

(** [Thread.start()] *)
Definition Thread_start (t : Thread) : M os Thread :=
  o ← get_state;
  if threads_left o then mret {| daemon := daemon t; alive := true |}
  else lift (Raise (Exn RuntimeError "can't start new thread")).

End Net.
Import Net.

(** *** MCPServer *)

(** The attributes of an [MCPServer] instance. *)
Record MCPServer : Type := {
  port : Z;
  server : option TCPServer;
  thread : option Thread;
  running : bool
}.

(** Lines 215-219, [__init__]. *)
Definition MCPServer_init (port : Z) : MCPServer :=
  {| port := port; server := None; thread := None; running := false |}.

(** The methods run on the instance and on the operating system. *)
Definition world : Type := MCPServer * os.

Definition self : M world MCPServer := λ w, (w, Ok w.1).

Definition in_os {A} (m : M os A) : M world A :=
  λ w, let '(o, r) := m w.2 in ((w.1, o), r).

Definition set_server (srv : option TCPServer) : M world unit :=
  modify (λ w : world, ({| port := port w.1; server := srv; thread := thread w.1;
                           running := running w.1 |}, w.2)).

Definition set_thread (t : option Thread) : M world unit :=
  modify (λ w : world, ({| port := port w.1; server := server w.1; thread := t;
                           running := running w.1 |}, w.2)).

Definition set_running (flag : bool) : M world unit :=
  modify (λ w : world, ({| port := port w.1; server := server w.1;
                           thread := thread w.1; running := flag |}, w.2)).

(** [self.server.allow_reuse_address = True]: an attribute of the server
    object; its socket is not touched. *)
Definition set_allow_reuse_address (flag : bool) : M world unit :=
  me ← self;
  match server me with
  | Some srv =>
    set_server (Some {| server_address := server_address srv;
                        allow_reuse_address := flag; sock := sock srv |})
  | None =>
    lift (Raise (Exn AttributeError
                   "'NoneType' object has no attribute 'allow_reuse_address'"))
  end.

(** Lines 221-237.  Line 227 overwrites [self.server]; what becomes of
    the socket of a server object that it drops is left to the rest of
    the system. *)
Definition start `{Kernel} : M world unit :=
  me ← self;
  if running me then mret tt
  else
    try_except
      (srv ← in_os (TCPServer_new ("127.0.0.1", port me));
       set_server (Some srv);;
       set_allow_reuse_address true;;
       set_running true;;
       set_thread (Some {| daemon := false; alive := false |});;
       set_thread (Some {| daemon := true; alive := false |});;
       t ← in_os (Thread_start {| daemon := true; alive := false |});
       set_thread (Some t);;
       in_os (print ("EditorContextMCP: Server started on http://127.0.0.1:"
                       +:+ pretty (port me))))
      (λ e,
       in_os (print ("EditorContextMCP: Failed to start server: "
                       +:+ message e))).

(** [BaseServer.shutdown()] asks the serve loop to end and waits until it
    has.  The loop runs in the thread of line 231, which enters it once
    started ([alive]); on a server whose thread was never started the
    wait has no end. *)
Definition shutdown_returns (me : MCPServer) : bool :=
  match thread me with
  | Some t => alive t
  | None => false
  end.

(** Lines 244-249; [None] when the call does not return.  [shutdown()]
    leaves the socket open. *)
Definition stop (w : world) : option (world * result unit) :=
  match server w.1 with
  | Some _ =>
    if shutdown_returns w.1 then
      Some ((set_running false;;
             in_os (print "EditorContextMCP: Server stopped")) w)
    else None
  | None => Some (w, Ok tt)
  end.

(** *** EditorContextShowStateCommand *)

(** What the command asks of the host, in order. *)
Inductive host_command : Type :=
| NewFile
| SetName (name : string)
| SetScratch (scratch : bool)
| SetSyntaxFile (syntax : string)
| RunCommand (name : string) (args : json).

Section ShowState.
Context `{PyRuntime}.

(** Lines 276-287; [window] is [self.view.window()]. *)
Definition run (window : option Window) (windows : list Window) (now : string)
    : list host_command :=
  let state := get_state_snapshot windows now in
  match window with
  | Some _ =>
    [NewFile;
     SetName "Editor Context State";
     SetScratch true;
     SetSyntaxFile "Packages/JavaScript/JSON.sublime-syntax";
     RunCommand "append"
       (JObj [("characters", JStr (json_dumps (Some 2%nat) state))])]
  | None => []
  end.

End ShowState.

(** * Vocabulary of the specification *)

Arguments truthy : simpl never.

(** ** The snapshot read back *)

Definition field (key : string) (v : json) : json :=
  match v with JObj members => dict_get members key JNull | _ => JNull end.

Definition items (v : json) : list json :=
  match v with JArr l => l | _ => [] end.

Definition activeFiles (snapshot : json) : list json :=
  items (field "activeFiles" snapshot).
Definition otherFiles (snapshot : json) : list json :=
  items (field "otherFiles" snapshot).
Definition projectFolders (snapshot : json) : list json :=
  items (field "projectFolders" snapshot).

(** The path of a file entry. *)
Definition entry_path (e : json) : option string :=
  match field "path" e with JStr p => Some p | _ => None end.

(** How many entries of a list carry the path [p]. *)
Definition count_path (p : string) (l : list json) : nat :=
  length (filter (λ e, entry_path e = Some p) l).

(** Some view of some window is backed by the file [p]. *)
Definition view_holds (ws : list Window) (p : string) : Prop :=
  ∃ w v, w ∈ ws ∧ v ∈ views w ∧ file_name v = Some p.

(** [v], a view of the window [w], is the first view backed by [p] that
    the loops reach: the windows after [w] in the native order are
    visited before it, and so are the views before [v] in [w]. *)
Definition first_holder (ws : list Window) (p : string) (w : Window) (v : View)
    : Prop :=
  ∃ pre post vs1 vs2,
    ws = pre ++ w :: post ∧ views w = vs1 ++ v :: vs2 ∧
    file_name v = Some p ∧
    (∀ u, u ∈ vs1 → file_name u ≠ Some p) ∧
    (∀ w' u, w' ∈ post → u ∈ views w' → file_name u ≠ Some p).

(** ** The two loops as one

    A view together with the active file of its window; [occurrences]
    lists them in the order in which the loops reach them. *)
Abbreviation occurrence := (option string * View)%type.

Definition occurrences_of (w : Window) : list occurrence :=
  (λ v, (active_file_in_window w, v)) <$> views w.

Definition occurrences (windows : list Window) : list occurrence :=
  reverse windows ≫= occurrences_of.

Definition visit_occurrence (st : locals) (x : occurrence) : locals :=
  visit_view x.1 st x.2.

Definition holds_path (p : string) (x : occurrence) : Prop :=
  file_name x.2 = Some p.

#[global] Instance holds_path_dec p x : Decision (holds_path p x).
Proof. unfold holds_path. apply _. Defined.

(** The occurrences that produce an entry: those whose file has a name
    that no earlier occurrence, and no member of [seen], carries. *)
Fixpoint first_seen (seen : gset string) (occ : list occurrence)
    : list occurrence :=
  match occ with
  | [] => []
  | x :: rest =>
    match file_name x.2 with
    | Some name =>
      if truthy (Some name) && negb (bool_decide (name ∈ seen))
      then x :: first_seen ({[name]} ∪ seen) rest
      else first_seen seen rest
    | None => first_seen seen rest
    end
  end.

(** The names seen once the occurrences are visited. *)
Fixpoint mark (seen : gset string) (occ : list occurrence) : gset string :=
  match occ with
  | [] => seen
  | x :: rest =>
    match file_name x.2 with
    | Some name =>
      if truthy (Some name) then mark ({[name]} ∪ seen) rest else mark seen rest
    | None => mark seen rest
    end
  end.

Definition is_active (x : occurrence) : bool :=
  bool_decide (file_name x.2 = x.1).

Definition entry_of (x : occurrence) : json :=
  file_obj (default "" (file_name x.2)) x.2.

Definition with_folders (fs : list string) (st : locals) : locals :=
  {| active_files := active_files st; other_files := other_files st;
     project_folders := fs; seen_files := seen_files st |}.

(** ** Responses and the console *)


Definition json_headers (code : Z) : list http_event :=
  [SendResponse code; SendHeader "Content-type" "application/json"; EndHeaders].

(** The frame of a call on a connection whose writes go as [fate]
    says. *)
Definition connection (fate : list (option exn)) : frame :=
  {| wfile := []; local_request := None; headers_buffer := [];
     pending := fate |}.

(** One POST request on such a connection: what reached the client and
    whether the handler returned or raised. *)
Definition serve_POST_on `{PyRuntime} (windows : list Window) (now : string)
    (fate : list (option exn)) (r : http_request)
    : list http_event * result unit :=
  let '(fr, outcome) := do_POST windows now r (connection fate) in
  (wfile fr, outcome).

Definition broken_pipe : exn :=
  Exn BrokenPipeError "[Errno 32] Broken pipe".

(** What becomes of a response with the status [code]: the header block
    is one write, with the lines [held] from an earlier write that
    failed in front of it, and the body is another. *)
Definition delivered (fate : list (option exn)) (held : list http_event)
    (code : Z) (body : string) : list http_event * result unit :=
  match fate with
  | Some e :: _ => ([], Raise e)
  | None :: Some e :: _ => (held ++ json_headers code, Raise e)
  | _ => (held ++ json_headers code ++ [WfileWrite body], Ok tt)
  end.

(** The body of the response that lines 126-133 build for the
    exception [e]. *)
Definition internal_error `{PyRuntime} (e : exn) (request : json) : string :=
  json_dumps None
    (JObj [("jsonrpc", JStr "2.0");
           ("error", JObj [("code", JInt (-32603));
                           ("message", JStr (message e))]);
           ("id", field "id" request)]).

Definition loopback (port : Z) : string * Z := ("127.0.0.1", port).

(** One more line on the console. *)
Definition printed (o : os) (line : string) : os :=
  {| in_use := in_use o; in_teardown := in_teardown o;
     threads_left := threads_left o; console := console o ++ [line] |}.

(** * Sample inputs

    A host with two windows, a few requests, three states of the
    operating system, and a small runtime to run the handler on them. *)
Module Sample.

(** Forty characters a line. *)
Definition grid (point : Z) : Z * Z := (point `div` 40, point `mod` 40).

Definition main_py : View :=
  {| file_name := Some "/work/app/main.py";
     sel := [{| a := 125; b := 125 |}; {| a := 300; b := 310 |}];
     rowcol := grid |}.

Definition util_py : View :=
  {| file_name := Some "/work/app/util.py";
     sel := [{| a := 42; b := 0 |}];
     rowcol := grid |}.

(** A second view into [main.py], with a selection of its own. *)
Definition main_py_clone : View :=
  {| file_name := Some "/work/app/main.py";
     sel := [{| a := 0; b := 80 |}];
     rowcol := grid |}.

Definition notes_md : View :=
  {| file_name := Some "/work/notes.md"; sel := []; rowcol := grid |}.

Definition untitled : View :=
  {| file_name := None; sel := [{| a := 0; b := 0 |}]; rowcol := grid |}.

(** The frontmost window. *)
Definition W1 : Window :=
  {| folders := ["/work/app"];
     active_view := Some main_py;
     views := [main_py; util_py] |}.

Definition W2 : Window :=
  {| folders := ["/work/app"; "/work/docs"];
     active_view := Some notes_md;
     views := [untitled; main_py_clone; notes_md] |}.

(** [sublime.windows()]: back to front. *)
Definition windows : list Window := [W2; W1].

Definition clock : string := "2025-01-01T12:00:00.000000".

Definition idle : os :=
  {| in_use := []; in_teardown := []; threads_left := true; console := [] |}.

(** The port of the previous listener is still in teardown. *)
Definition restarting : os :=
  {| in_use := []; in_teardown := [8765]; threads_left := true; console := [] |}.

Definition occupied : os :=
  {| in_use := [8765]; in_teardown := []; threads_left := true; console := [] |}.

Definition quote : string := String "034"%char "".

(** A compact encoder; it does not escape and has one layout. *)
Fixpoint dumps (v : json) : string :=
  match v with
  | JNull => "null"
  | JBool true => "true"
  | JBool false => "false"
  | JInt n => pretty n
  | JFloat _ => "0.0"
  | JStr s => quote +:+ s +:+ quote
  | JArr l =>
    "[" +:+
    (fix go (l : list json) : string :=
       match l with
       | [] => ""
       | [x] => dumps x
       | x :: rest => dumps x +:+ ", " +:+ go rest
       end) l +:+ "]"
  | JObj m =>
    "{" +:+
    (fix go (m : list (string * json)) : string :=
       match m with
       | [] => ""
       | [(k, x)] => quote +:+ k +:+ quote +:+ ": " +:+ dumps x
       | (k, x) :: rest =>
         quote +:+ k +:+ quote +:+ ": " +:+ dumps x +:+ ", " +:+ go rest
       end) m +:+ "}"
  end.

Definition read_state : json :=
  JObj [("jsonrpc", JStr "2.0"); ("method", JStr "resources/read");
        ("params", JObj [("uri", JStr "sublime-context://state")]);
        ("id", JInt 7)].

Definition read_other : json :=
  JObj [("jsonrpc", JStr "2.0"); ("method", JStr "resources/read");
        ("params", JObj [("uri", JStr "sublime-context://buffers")]);
        ("id", JInt 8)].

Definition foo_bar : json :=
  JObj [("method", JStr "foo/bar"); ("id", JInt 42)].

Definition batch : json := JArr [JInt 1; JInt 2].

(** The texts that the decoder knows. *)
Definition known : list json := [read_state; read_other; foo_bar; batch].

Definition loads (s : string) : result json :=
  match list_find (λ v, dumps v = s) known with
  | Some (_, v) => Ok v
  | None =>
    Raise (Exn JSONDecodeError "Expecting value: line 1 column 1 (char 0)")
  end.

Fixpoint digits (s : string) (acc : Z) : option Z :=
  match s with
  | EmptyString => Some acc
  | String c rest =>
    match Ascii.is_nat c with
    | Some d => digits rest (10 * acc + Z.of_nat d)
    | None => None
    end
  end.

Definition int (s : string) : result Z :=
  match s, digits s 0 with
  | String _ _, Some n => Ok n
  | _, _ =>
    Raise (Exn ValueError
             ("invalid literal for int() with base 10: '" +:+ s +:+ "'"))
  end.

#[global] Instance runtime : PyRuntime :=
  {| json_loads := loads;
     json_dumps := λ _, dumps;
     decode_utf8 := Ok;
     py_int := int;
     py_repr := dumps |}.

(** A kernel that hands out the first vacant port from 49152 on. *)
Definition first_vacant (o : os) : option Z :=
  List.find (vacant o) (seqZ 49152 16).

#[global] Instance kernel : Kernel := {| ephemeral_port := first_vacant |}.

(** A POST request that announces its body in full. *)
Definition post (body : string) : http_request :=
  {| path := "/";
     headers := [("Host", "127.0.0.1:8765");
                 ("content-length", pretty (Z.of_nat (String.length body)))];
     rfile := body |}.

End Sample.

(** * Further vocabulary *)


(** The states of an instance made for the port [p]: fresh from
    [__init__], after a call of [start], after a call of [stop] that
    returned, and after the rest of the system changed the ports or the
    console, which cannot free the port that the socket of the
    instance's server holds. *)
Inductive reachable `{Kernel} (p : Z) : world → Prop :=
| reach_init o :
    reachable p (MCPServer_init p, o)
| reach_start w w' r :
    reachable p w → start w = (w', r) → reachable p w'
| reach_stop w w' r :
    reachable p w → stop w = Some (w', r) → reachable p w'
| reach_env me o o' :
    reachable p (me, o) →
    (∀ srv address,
       server me = Some srv → bound_to (sock srv) = Some address →
       address.2 ∈ in_use o → address.2 ∈ in_use o') →
    reachable p (me, o').

(** The socket of [srv] is bound to the port [q] of the loopback
    address and listens, and [server_address] says so. *)
Definition bound_for (q : Z) (srv : TCPServer) : Prop :=
  server_address srv = ("127.0.0.1", q)
  ∧ bound_to (sock srv) = Some ("127.0.0.1", q)
  ∧ listening (sock srv) = true.

(** The port that a socket without [SO_REUSEADDR] gets when it asks for
    the port [p]: the kernel's choice for 0, [p] itself otherwise;
    [None] when the bind is refused. *)
Definition bound_port `{Kernel} (p : Z) (o : os) : option Z :=
  if p =? 0 then
    match ephemeral_port o with
    | Some chosen => if vacant o chosen then Some chosen else None
    | None => None
    end
  else if vacant o p then Some p else None.

(** The operating system once the port [q] is bound. *)
Definition holding (q : Z) (o : os) : os :=
  {| in_use := q :: in_use o; in_teardown := in_teardown o;
     threads_left := threads_left o; console := console o |}.

(** The server object of an instance that [start] brought up on the
    port [q]. *)
Definition listener (q : Z) : TCPServer :=
  {| server_address := ("127.0.0.1", q);
     allow_reuse_address := true;
     sock := {| so_reuseaddr := false; bound_to := Some ("127.0.0.1", q);
                listening := true |} |}.

(** What holds of every reachable state of an instance made for the
    port [p]. *)
Definition consistent (p : Z) (w : world) : Prop :=
  port w.1 = p
  ∧ (running w.1 = true → is_Some (server w.1))
  ∧ (∀ srv, server w.1 = Some srv →
       ∃ q, srv = listener q ∧ 1 ≤ q ≤ 65535 ∧ (p ≠ 0 → q = p)
            ∧ q ∈ in_use w.2)
  ∧ (server w.1 = None → thread w.1 = None ∧ running w.1 = false).

(** More sample inputs. *)
Module Cases.

(** A window whose focused view has no file. *)
Definition scratch_window : Window :=
  {| folders := ["/work/docs"; "/work/app"; "/work/docs"];
     active_view := Some Sample.untitled;
     views := [Sample.untitled; Sample.notes_md] |}.

(** A second window that shows [main.py] focused. *)
Definition mirror_window : Window :=
  {| folders := [];
     active_view := Some Sample.main_py_clone;
     views := [Sample.main_py_clone; Sample.notes_md] |}.

(** A window with two views into [main.py]; the second of them is
    focused. *)
Definition split_window : Window :=
  {| folders := [];
     active_view := Some Sample.main_py;
     views := [Sample.util_py; Sample.main_py_clone; Sample.main_py] |}.

Definition initialize : json :=
  JObj [("jsonrpc", JStr "2.0"); ("method", JStr "initialize");
        ("params", JArr []); ("id", JInt 1)].

Definition list_resources : json :=
  JObj [("jsonrpc", JStr "2.0"); ("method", JStr "resources/list");
        ("id", JStr "a")].

Definition read_null_params : json :=
  JObj [("method", JStr "resources/read"); ("params", JNull); ("id", JInt 9)].

(** An instance after [start] on a free port and [stop]. *)
Definition stopped : world :=
  ({| port := 8765; server := Some (listener 8765);
      thread := Some {| daemon := true; alive := true |}; running := false |},
   printed (printed (holding 8765 Sample.idle)
              "EditorContextMCP: Server started on http://127.0.0.1:8765")
     "EditorContextMCP: Server stopped").


(** The decoder of [Sample], with three more texts. *)
Definition known : list json :=
  [initialize; list_resources; read_null_params] ++ Sample.known.

Definition loads (s : string) : result json :=
  match list_find (λ v, Sample.dumps v = s) known with
  | Some (_, v) => Ok v
  | None =>
    Raise (Exn JSONDecodeError "Expecting value: line 1 column 1 (char 0)")
  end.

Definition runtime : PyRuntime :=
  {| json_loads := loads;
     json_dumps := λ _, Sample.dumps;
     decode_utf8 := Ok;
     py_int := Sample.int;
     py_repr := Sample.dumps |}.

End Cases.

(** * Properties of the snapshot *)

Lemma union_seen (name : string) (seen : gset string) :
  name ∈ seen → {[name]} ∪ seen = seen.
Proof. intros Hs. apply subseteq_union_1_L. by apply singleton_subseteq_l. Qed.

Lemma truthy_Some p : truthy (Some p) = true ↔ p ≠ "".
Proof.
  unfold truthy. case_bool_decide; simpl; split; intros; congruence.
Qed.

(** A view whose file name is [None] or empty leaves the four variables
    as they are, and so does a view whose file name was seen before. *)
Lemma visit_view_skips a st v :
  truthy (file_name v) = false
  ∨ (∃ name, file_name v = Some name ∧ name ∈ seen_files st) →
  visit_view a st v = st.
Proof.
  unfold visit_view. intros [Hfalse|(name & Hname & Hseen)].
  - destruct (file_name v) as [name|]; [|done]. by rewrite Hfalse.
  - rewrite Hname, (bool_decide_eq_true_2 _ Hseen). by rewrite andb_false_r.
Qed.

Lemma visit_occurrences_spec occ : ∀ st,
  foldl visit_occurrence st occ =
  {| active_files := active_files st ++ (entry_of <$> filter is_active (first_seen (seen_files st) occ));
     other_files := other_files st ++ (entry_of <$> filter (λ x, negb (is_active x)) (first_seen (seen_files st) occ));
     project_folders := project_folders st;
     seen_files := mark (seen_files st) occ |}.
Proof.
  induction occ as [|[a v] occ IH]; intros st; simpl.
  - rewrite !app_nil_r. by destruct st.
  - rewrite IH. unfold visit_occurrence, visit_view; simpl.
    destruct (file_name v) as [name|] eqn:Hn; [|reflexivity].
    destruct (truthy (Some name)) eqn:Ht; simpl; [|reflexivity].
    case_bool_decide as Hs; simpl.
    + rewrite (union_seen _ _ Hs).
      reflexivity.
    + assert (Hact : is_active (a, v) = bool_decide (Some name = a))
        by (unfold is_active; simpl; by rewrite Hn).
      assert (He : entry_of (a, v) = file_obj name v)
        by (unfold entry_of; simpl; by rewrite Hn).
      rewrite !filter_cons, Hact.
      destruct (bool_decide (Some name = a)); simpl;
        rewrite ?He, <- ?app_assoc; reflexivity.
Qed.

Lemma first_seen_app l1 : ∀ seen l2,
  first_seen seen (l1 ++ l2) = first_seen seen l1 ++ first_seen (mark seen l1) l2.
Proof.
  induction l1 as [|[a v] l1 IH]; intros seen l2; simpl; [done|].
  destruct (file_name v) as [name|]; [|apply IH].
  destruct (truthy (Some name)); simpl; [|apply IH].
  case_bool_decide as Hs; simpl.
  - rewrite (union_seen _ _ Hs). apply IH.
  - by rewrite IH.
Qed.

Lemma mark_app l1 : ∀ seen l2, mark seen (l1 ++ l2) = mark (mark seen l1) l2.
Proof.
  induction l1 as [|[a v] l1 IH]; intros seen l2; simpl; [done|].
  destruct (file_name v) as [name|]; [|apply IH].
  destruct (truthy (Some name)); apply IH.
Qed.

Lemma visit_occurrences_with_folders fs st occ :
  foldl visit_occurrence (with_folders fs st) occ
  = with_folders fs (foldl visit_occurrence st occ).
Proof. by rewrite !visit_occurrences_spec. Qed.

Lemma visit_window_spec st w :
  visit_window st w =
  with_folders (foldl add_folder (project_folders st) (folders w))
    (foldl visit_occurrence st (occurrences_of w)).
Proof.
  rewrite <- visit_occurrences_with_folders.
  unfold visit_window, occurrences_of, with_folders.
  generalize (active_file_in_window w). intros a.
  match goal with |- foldl _ ?s _ = _ => generalize s end.
  induction (views w) as [|v vs IH]; intros s; simpl; [done|]. apply IH.
Qed.

Lemma visit_windows_spec l : ∀ st,
  foldl visit_window st l =
  with_folders (foldl add_folder (project_folders st) (l ≫= folders))
    (foldl visit_occurrence st (l ≫= occurrences_of)).
Proof.
  induction l as [|w l IH]; intros st; simpl.
  - by destruct st.
  - rewrite IH, visit_window_spec, !foldl_app.
    rewrite visit_occurrences_with_folders. reflexivity.
Qed.

Lemma collect_spec ws :
  collect ws =
  {| active_files := entry_of <$> filter is_active (first_seen ∅ (occurrences ws));
     other_files := entry_of <$> filter (λ x, negb (is_active x)) (first_seen ∅ (occurrences ws));
     project_folders := foldl add_folder [] (reverse ws ≫= folders);
     seen_files := mark ∅ (occurrences ws) |}.
Proof.
  unfold collect. rewrite visit_windows_spec, visit_occurrences_spec. reflexivity.
Qed.

Lemma elem_of_mark l : ∀ seen p,
  p ∈ mark seen l ↔ p ∈ seen ∨ (p ≠ "" ∧ ∃ x, x ∈ l ∧ holds_path p x).
Proof.
  unfold holds_path.
  induction l as [|[a v] l IH]; intros seen p; simpl.
  - split; [by left|]. intros [?|(_ & x & Hx & _)]; [done|]. by apply elem_of_nil in Hx.
  - assert (Hskip : (∀ q, file_name v = Some q → truthy (Some q) = false) →
        p ∈ mark seen l ↔
        p ∈ seen ∨ p ≠ "" ∧ ∃ x : occurrence, x ∈ (a, v) :: l ∧ file_name x.2 = Some p).
    { intros Hq. rewrite IH. split.
      - intros [?|(Hp & x & Hx & Hh)]; [by left|right].
        split; [done|]. exists x. split; [by apply list_elem_of_further|done].
      - intros [?|(Hp & x & Hx & Hh)]; [by left|].
        apply elem_of_cons in Hx as [->|Hx].
        + simpl in Hh. apply Hq in Hh. apply truthy_Some in Hp. congruence.
        + right. split; [done|]. by exists x. }
    destruct (file_name v) as [name|] eqn:Hn; [|by apply Hskip].
    destruct (truthy (Some name)) eqn:Ht; [|apply Hskip; congruence].
    rewrite IH, elem_of_union, elem_of_singleton. split.
    + intros [[->|?]|(Hp & x & Hx & Hh)].
      * right. split; [by apply truthy_Some|]. exists (a, v).
        split; [apply list_elem_of_here|done].
      * by left.
      * right. split; [done|]. exists x. split; [by apply list_elem_of_further|done].
    + intros [?|(Hp & x & Hx & Hh)]; [by left; right|].
      apply elem_of_cons in Hx as [->|Hx].
      * simpl in Hh. left; left. congruence.
      * right. split; [done|]. by exists x.
Qed.

Lemma first_seen_elem l : ∀ seen x,
  x ∈ first_seen seen l →
  x ∈ l ∧ ∃ p, holds_path p x ∧ p ≠ "" ∧ p ∉ seen.
Proof.
  unfold holds_path.
  induction l as [|[a v] l IH]; intros seen x; simpl.
  - intros Hx. by apply elem_of_nil in Hx.
  - assert (Hrec : ∀ s, s = seen ∨ (∃ n, s = {[n]} ∪ seen) → x ∈ first_seen s l →
        x ∈ (a, v) :: l ∧ ∃ p, file_name x.2 = Some p ∧ p ≠ "" ∧ p ∉ seen).
    { intros s Hs Hx. apply IH in Hx as (Hx & p & Hp & Hne & Hns).
      split; [by apply list_elem_of_further|]. exists p. split; [done|]. split; [done|].
      destruct Hs as [->|[n ->]]; [done|].
      intros Hc. apply Hns. apply elem_of_union. by right. }
    destruct (file_name v) as [name|] eqn:Hn; [|apply Hrec; by left].
    destruct (truthy (Some name)) eqn:Ht; simpl; [|apply Hrec; by left].
    case_bool_decide as Hs; simpl; [apply Hrec; by left|].
    intros Hx. apply elem_of_cons in Hx as [->|Hx].
    + split; [apply list_elem_of_here|]. exists name.
      split; [done|]. split; [by apply truthy_Some|done].
    + revert Hx. apply Hrec. right. by exists name.
Qed.

Lemma first_seen_split seen l1 x l2 p :
  holds_path p x → p ≠ "" → p ∉ seen →
  (∀ y, y ∈ l1 → ¬ holds_path p y) →
  first_seen seen (l1 ++ x :: l2) =
  first_seen seen l1 ++ x :: first_seen ({[p]} ∪ mark seen l1) l2.
Proof.
  intros Hx Hp Hs Hl1. rewrite first_seen_app. f_equal. simpl.
  unfold holds_path in Hx. rewrite Hx.
  apply truthy_Some in Hp as Ht. rewrite Ht. simpl.
  rewrite bool_decide_eq_false_2; [done|].
  rewrite elem_of_mark. intros [?|(_ & y & Hy & Hh)]; [done|].
  by apply (Hl1 y).
Qed.

Lemma first_in_list {A} (P : A → Prop) `{∀ x, Decision (P x)} (l : list A) :
  (∃ x, x ∈ l ∧ P x) →
  ∃ l1 x l2, l = l1 ++ x :: l2 ∧ P x ∧ ∀ y, y ∈ l1 → ¬ P y.
Proof.
  induction l as [|y l IH]; intros (x & Hx & Hh).
  - by apply elem_of_nil in Hx.
  - destruct (decide (P y)) as [Hy|Hy].
    + exists [], y, l. split; [done|]. split; [done|].
      intros z Hz. by apply elem_of_nil in Hz.
    + apply elem_of_cons in Hx as [->|Hx]; [done|].
      destruct IH as (l1 & x' & l2 & -> & Hx' & Hl1); [by exists x|].
      exists (y :: l1), x', l2. split; [done|]. split; [done|].
      intros z Hz. apply elem_of_cons in Hz as [->|Hz]; [done|]. by apply Hl1.
Qed.

(** *** The snapshot seen from the host *)

Lemma snapshot_activeFiles ws now :
  activeFiles (get_state_snapshot ws now) = active_files (collect ws).
Proof. reflexivity. Qed.

Lemma snapshot_otherFiles ws now :
  otherFiles (get_state_snapshot ws now) = other_files (collect ws).
Proof. reflexivity. Qed.

Lemma snapshot_projectFolders ws now :
  projectFolders (get_state_snapshot ws now) = JStr <$> project_folders (collect ws).
Proof. reflexivity. Qed.

Lemma occurrences_app ws1 ws2 :
  occurrences (ws1 ++ ws2) = occurrences ws2 ++ occurrences ws1.
Proof. unfold occurrences. by rewrite reverse_app, bind_app. Qed.

Lemma occurrences_cons w ws :
  occurrences (w :: ws) = occurrences ws ++ occurrences_of w.
Proof.
  unfold occurrences. rewrite reverse_cons, bind_app. simpl.
  by rewrite app_nil_r.
Qed.

Lemma elem_of_occurrences ws x :
  x ∈ occurrences ws ↔
  ∃ w, w ∈ ws ∧ x.1 = active_file_in_window w ∧ x.2 ∈ views w.
Proof.
  unfold occurrences, occurrences_of. rewrite list_elem_of_bind. split.
  - intros (w & Hx & Hw). rewrite elem_of_reverse in Hw.
    apply list_elem_of_fmap in Hx as (v & -> & Hv). by exists w.
  - intros (w & Hw & Ha & Hv). exists w. split; [|by apply elem_of_reverse].
    apply list_elem_of_fmap. exists x.2. split; [|done].
    destruct x; simpl in *; by subst.
Qed.

Lemma view_holds_occurrences ws p :
  view_holds ws p ↔ ∃ x, x ∈ occurrences ws ∧ holds_path p x.
Proof.
  split.
  - intros (w & v & Hw & Hv & Hp). exists (active_file_in_window w, v).
    split; [|done]. apply elem_of_occurrences. by exists w.
  - intros (x & Hx & Hp). apply elem_of_occurrences in Hx as (w & Hw & _ & Hv).
    by exists w, x.2.
Qed.

Lemma first_holder_exists ws p :
  view_holds ws p → ∃ w v, first_holder ws p w v.
Proof.
  induction ws as [|w0 ws IH] using rev_ind; intros (w & v & Hw & Hv & Hp).
  - by apply elem_of_nil in Hw.
  - destruct (decide (Exists (λ u, file_name u = Some p) (views w0))) as [Hin|Hout];
      rewrite Exists_exists in *.
    + destruct (first_in_list (λ u, file_name u = Some p) (views w0) Hin)
        as (vs1 & u & vs2 & Hvs & Hu & Hfirst).
      exists w0, u, ws, [], vs1, vs2. repeat split; try done.
      intros w' u' Hw'. by apply elem_of_nil in Hw'.
    + apply elem_of_app in Hw as [Hw|Hw].
      * destruct IH as (w1 & v1 & pre & post & vs1 & vs2 & -> & Hvs & Hv1 & Hb & Ha);
          [by exists w, v|].
        exists w1, v1, pre, (post ++ [w0]), vs1, vs2.
        split; [by rewrite <- app_assoc|]. repeat split; try done.
        intros w' u Hw' Hu. apply elem_of_app in Hw' as [Hw'|Hw'].
        -- by apply (Ha w').
        -- apply list_elem_of_singleton in Hw' as ->. intros Hc. apply Hout. by exists u.
      * apply list_elem_of_singleton in Hw as ->. exfalso. apply Hout. by exists v.
Qed.

Lemma first_holder_occurrences ws p w v :
  first_holder ws p w v →
  ∃ l1 l2, occurrences ws = l1 ++ (active_file_in_window w, v) :: l2 ∧
           ∀ y, y ∈ l1 → ¬ holds_path p y.
Proof.
  intros (pre & post & vs1 & vs2 & -> & Hvs & Hv & Hb & Ha).
  exists (occurrences post ++ ((λ u, (active_file_in_window w, u)) <$> vs1)),
         (((λ u, (active_file_in_window w, u)) <$> vs2) ++ occurrences pre).
  split.
  - rewrite occurrences_app, occurrences_cons. unfold occurrences_of at 1.
    rewrite Hvs, fmap_app, fmap_cons, <- !app_assoc. reflexivity.
  - intros y Hy Hh. unfold holds_path in Hh.
    apply elem_of_app in Hy as [Hy|Hy].
    + apply elem_of_occurrences in Hy as (w' & Hw' & _ & Hu). by apply (Ha w' y.2).
    + apply list_elem_of_fmap in Hy as (u & -> & Hu). by apply (Hb u).
Qed.

Lemma entry_of_holds p x :
  holds_path p x → entry_of x = file_obj p x.2.
Proof. unfold holds_path, entry_of. by intros ->. Qed.

Lemma entry_path_file_obj p v : entry_path (file_obj p v) = Some p.
Proof. reflexivity. Qed.

Lemma first_seen_first_holder ws p w v :
  p ≠ "" → first_holder ws p w v →
  ∃ F1 F2,
    first_seen ∅ (occurrences ws) = F1 ++ (active_file_in_window w, v) :: F2 ∧
    ∀ y, y ∈ F1 ++ F2 → ∃ q, holds_path q y ∧ q ≠ p.
Proof.
  intros Hp Hfirst.
  assert (Hv : holds_path p (active_file_in_window w, v)).
  { by destruct Hfirst as (? & ? & ? & ? & _ & _ & ? & _). }
  apply first_holder_occurrences in Hfirst as (l1 & l2 & -> & Hl1).
  rewrite (first_seen_split ∅ l1 _ l2 p Hv Hp (not_elem_of_empty p) Hl1).
  eexists _, _. split; [reflexivity|].
  intros y Hy. apply elem_of_app in Hy as [Hy|Hy];
    apply first_seen_elem in Hy as (Hy & q & Hq & _ & Hns); exists q; (split; [done|]).
  - intros ->. by apply (Hl1 y).
  - intros ->. apply Hns, elem_of_union. left. by apply elem_of_singleton.
Qed.

Lemma count_path_app p l1 l2 :
  count_path p (l1 ++ l2) = (count_path p l1 + count_path p l2)%nat.
Proof. unfold count_path. by rewrite filter_app, length_app. Qed.

Lemma count_path_other p (Q : occurrence → bool) F :
  (∀ y, y ∈ F → ∃ q, holds_path q y ∧ q ≠ p) →
  count_path p (entry_of <$> filter Q F) = 0%nat.
Proof.
  intros HF. unfold count_path.
  induction F as [|y F IH]; [done|].
  rewrite filter_cons.
  assert (HF' : ∀ z, z ∈ F → ∃ q, holds_path q z ∧ q ≠ p)
    by (intros z Hz; apply HF; by apply list_elem_of_further).
  destruct (decide (Q y)); [|by apply IH].
  rewrite fmap_cons, filter_cons.
  destruct (HF y) as (q & Hq & Hne); [apply list_elem_of_here|].
  rewrite (entry_of_holds q y Hq), entry_path_file_obj.
  destruct (decide (Some q = Some p)) as [Heq|_]; [congruence|]. by apply IH.
Qed.

Lemma count_path_split p (Q : occurrence → bool) F1 x F2 :
  holds_path p x →
  (∀ y, y ∈ F1 ++ F2 → ∃ q, holds_path q y ∧ q ≠ p) →
  count_path p (entry_of <$> filter Q (F1 ++ x :: F2)) = if Q x then 1%nat else 0%nat.
Proof.
  intros Hx HF.
  rewrite filter_app, fmap_app, count_path_app, filter_cons.
  rewrite count_path_other by (intros y Hy; apply HF, elem_of_app; by left).
  assert (H2 : count_path p (entry_of <$> filter Q F2) = 0%nat).
  { apply count_path_other. intros y Hy; apply HF, elem_of_app; by right. }
  destruct (Q x); simpl; [|done].
  unfold count_path in *. rewrite filter_cons, (entry_of_holds p x Hx), entry_path_file_obj.
  rewrite decide_True by done. simpl. f_equal. exact H2.
Qed.

Lemma entries_held ws e :
  e ∈ active_files (collect ws) ++ other_files (collect ws) →
  ∃ w v q, w ∈ ws ∧ v ∈ views w ∧ file_name v = Some q ∧ q ≠ "" ∧ e = file_obj q v.
Proof.
  rewrite collect_spec; simpl. intros He.
  assert (∃ x, x ∈ first_seen ∅ (occurrences ws) ∧ e = entry_of x) as (x & Hx & ->).
  { apply elem_of_app in He as [He|He];
      apply list_elem_of_fmap in He as (x & -> & Hx);
      apply list_elem_of_filter in Hx as [_ Hx]; by exists x. }
  apply first_seen_elem in Hx as (Hx & q & Hq & Hne & _).
  apply elem_of_occurrences in Hx as (w & Hw & _ & Hv).
  exists w, x.2, q. repeat split; try done. by apply entry_of_holds.
Qed.

Lemma count_first_holder ws p w v :
  p ≠ "" → first_holder ws p w v →
  count_path p (active_files (collect ws))
    = (if bool_decide (active_file_in_window w = Some p) then 1%nat else 0%nat)
  ∧ count_path p (other_files (collect ws))
    = (if bool_decide (active_file_in_window w = Some p) then 0%nat else 1%nat).
Proof.
  intros Hp Hfirst.
  assert (Hv : holds_path p (active_file_in_window w, v)).
  { by destruct Hfirst as (? & ? & ? & ? & _ & _ & ? & _). }
  destruct (first_seen_first_holder ws p w v Hp Hfirst) as (F1 & F2 & HF & Hrest).
  rewrite collect_spec; simpl. rewrite HF.
  rewrite !(count_path_split p _ F1 _ F2 Hv Hrest).
  unfold is_active; simpl. unfold holds_path in Hv; simpl in Hv. rewrite Hv.
  rewrite (bool_decide_ext (Some p = active_file_in_window w)
                           (active_file_in_window w = Some p)) by (split; congruence).
  by destruct (bool_decide (active_file_in_window w = Some p)).
Qed.

Lemma count_once ws p :
  p ≠ "" → view_holds ws p →
  (count_path p (active_files (collect ws))
   + count_path p (other_files (collect ws)) = 1)%nat.
Proof.
  intros Hp Hheld.
  destruct (first_holder_exists ws p Hheld) as (w & v & Hfirst).
  destruct (count_first_holder ws p w v Hp Hfirst) as [-> ->].
  by destruct (bool_decide (active_file_in_window w = Some p)).
Qed.

(** C2.  Whenever some view is backed by the file [p] (a file path, hence
    not the empty string, which line 40 treats like [None]), the
    snapshot has exactly one entry with that path in [activeFiles] and
    [otherFiles] taken together, so it is in exactly one of the two lists
    and not twice in either.  Which list it is in is decided where the
    path is first seen: it is [activeFiles] exactly when [p] is the active
    file of the window of the first view backed by it.  Every entry of
    the two lists has a path that some view is backed by, so a view
    without a file adds nothing to either list. *)
Theorem dedup_invariant ws now p :
  p ≠ "" → view_holds ws p →
  let snapshot := get_state_snapshot ws now in
  (count_path p (activeFiles snapshot) + count_path p (otherFiles snapshot) = 1)%nat
  ∧ (∀ w v, first_holder ws p w v →
       count_path p (activeFiles snapshot)
       = if bool_decide (active_file_in_window w = Some p) then 1%nat else 0%nat)
  ∧ (∀ e, e ∈ activeFiles snapshot ++ otherFiles snapshot →
       ∃ q, entry_path e = Some q ∧ q ≠ "" ∧ view_holds ws q).
Proof.
  intros Hp Hheld snapshot. subst snapshot.
  rewrite snapshot_activeFiles, snapshot_otherFiles.
  split; [|split].
  - by apply count_once.
  - intros w v Hfirst. by destruct (count_first_holder ws p w v Hp Hfirst).
  - intros e He. apply entries_held in He as (w & v & q & Hw & Hv & Hq & Hne & ->).
    exists q. split; [done|]. split; [done|]. by exists w, v.
Qed.

Lemma first_seen_drop seen l1 y l2 p :
  holds_path p y → p = "" ∨ p ∈ mark seen l1 →
  first_seen seen (l1 ++ y :: l2) = first_seen seen (l1 ++ l2)
  ∧ mark seen (l1 ++ y :: l2) = mark seen (l1 ++ l2).
Proof.
  unfold holds_path. intros Hy Hp.
  rewrite !first_seen_app, !mark_app. simpl. rewrite Hy.
  destruct (truthy (Some p)) eqn:Ht; simpl; [|done].
  destruct Hp as [->|Hp]; [done|].
  rewrite bool_decide_eq_true_2 by done. simpl.
  by rewrite (union_seen _ _ Hp).
Qed.

Lemma collect_remove_later pre w post vs1 u vs2 p :
  views w = vs1 ++ u :: vs2 → file_name u = Some p →
  (∃ u', u' ∈ vs1 ∧ file_name u' = Some p)
  ∨ (∃ w' u', w' ∈ post ∧ u' ∈ views w' ∧ file_name u' = Some p) →
  collect (pre ++ {| folders := folders w; active_view := active_view w;
                     views := vs1 ++ vs2 |} :: post)
  = collect (pre ++ w :: post).
Proof.
  intros Hvs Hu Hearlier.
  set (w' := {| folders := folders w; active_view := active_view w;
                views := vs1 ++ vs2 |}).
  set (a := active_file_in_window w).
  set (l1 := occurrences post ++ ((λ v, (a, v)) <$> vs1)).
  set (l2 := ((λ v, (a, v)) <$> vs2) ++ occurrences pre).
  assert (Hw : occurrences (pre ++ w :: post) = l1 ++ (a, u) :: l2).
  { rewrite occurrences_app, occurrences_cons. unfold occurrences_of at 1.
    rewrite Hvs, fmap_app, fmap_cons. unfold l1, l2, a.
    by rewrite <- !app_assoc. }
  assert (Hw' : occurrences (pre ++ w' :: post) = l1 ++ l2).
  { rewrite occurrences_app, occurrences_cons. unfold occurrences_of at 1.
    unfold w' at 1 2. simpl. rewrite fmap_app. unfold l1, l2, a.
    by rewrite <- !app_assoc. }
  assert (Hseen : p = "" ∨ p ∈ mark ∅ l1).
  { destruct (decide (p = "")) as [?|Hne]; [by left|right].
    apply elem_of_mark. right. split; [done|].
    destruct Hearlier as [(u' & Hin & Hp)|(w0 & u' & Hw0 & Hin & Hp)].
    - exists (a, u'). split; [|done]. apply elem_of_app. right.
      apply list_elem_of_fmap. by exists u'.
    - exists (active_file_in_window w0, u'). split; [|done].
      apply elem_of_app. left. apply elem_of_occurrences. by exists w0. }
  destruct (first_seen_drop ∅ l1 (a, u) l2 p Hu Hseen) as [Hfs Hmk].
  rewrite !collect_spec, Hw, Hw', Hfs, Hmk.
  by rewrite !reverse_app, !reverse_cons, !bind_app.
Qed.

(** C10.  Let [v] be the first view backed by [p] in the order of the
    loops (windows from the last of the native order to the first, views
    of a window in their native order).  An entry of the snapshot with
    path [p] is the object built from [v], with the selection of [v];
    for a path that is not empty the entry is there, once.  A later view
    backed by [p] adds nothing: without it in the list of views of its
    window, the snapshot is the same. *)
Theorem first_view_wins ws now p w v :
  first_holder ws p w v →
  let snapshot := get_state_snapshot ws now in
  (∀ e, e ∈ activeFiles snapshot ++ otherFiles snapshot → entry_path e = Some p →
        e = JObj [("path", JStr p); ("selection", selection_info v)])
  ∧ (p ≠ "" →
     JObj [("path", JStr p); ("selection", selection_info v)]
       ∈ activeFiles snapshot ++ otherFiles snapshot
     ∧ (count_path p (activeFiles snapshot)
        + count_path p (otherFiles snapshot) = 1)%nat)
  ∧ (∀ pre w' post vs1 u vs2,
       ws = pre ++ w' :: post → views w' = vs1 ++ u :: vs2 → file_name u = Some p →
       (∃ u', u' ∈ vs1 ∧ file_name u' = Some p)
       ∨ (∃ w'' u', w'' ∈ post ∧ u' ∈ views w'' ∧ file_name u' = Some p) →
       get_state_snapshot
         (pre ++ {| folders := folders w'; active_view := active_view w';
                    views := vs1 ++ vs2 |} :: post) now
       = snapshot).
Proof.
  intros Hfirst snapshot. subst snapshot.
  rewrite snapshot_activeFiles, snapshot_otherFiles.
  assert (Hv : holds_path p (active_file_in_window w, v)).
  { by destruct Hfirst as (? & ? & ? & ? & _ & _ & ? & _). }
  assert (Hheld : view_holds ws p).
  { destruct Hfirst as (pre & post & vs1 & vs2 & -> & Hvs & Hp & _).
    exists w, v. split; [apply elem_of_app; right; apply list_elem_of_here|].
    split; [|done]. rewrite Hvs. apply elem_of_app; right; apply list_elem_of_here. }
  assert (Hin : p ≠ "" → ∀ e,
    e ∈ active_files (collect ws) ++ other_files (collect ws) ∧ entry_path e = Some p
    ↔ e = file_obj p v).
  { intros Hp e.
    destruct (first_seen_first_holder ws p w v Hp Hfirst) as (F1 & F2 & HF & Hrest).
    rewrite collect_spec; simpl. rewrite HF. split.
    - intros [He Hpath].
      assert (∃ x, x ∈ F1 ++ (active_file_in_window w, v) :: F2 ∧ e = entry_of x)
        as (x & Hx & ->).
      { apply elem_of_app in He as [He|He];
          apply list_elem_of_fmap in He as (x & -> & Hx);
          apply list_elem_of_filter in Hx as [_ Hx]; by exists x. }
      assert (x = (active_file_in_window w, v) ∨ x ∈ F1 ++ F2) as [->|Hx'].
      { rewrite elem_of_app, elem_of_cons in Hx. rewrite elem_of_app. tauto. }
      + by apply (entry_of_holds p).
      + destruct (Hrest x Hx') as (q & Hq & Hne).
        rewrite (entry_of_holds q x Hq), entry_path_file_obj in Hpath. congruence.
    - intros ->. split; [|done].
      assert (Hobj : entry_of (active_file_in_window w, v) = file_obj p v)
        by apply (entry_of_holds p _ Hv).
      rewrite <- Hobj.
      destruct (is_active (active_file_in_window w, v)) eqn:Hact;
        [apply elem_of_app; left|apply elem_of_app; right];
        apply list_elem_of_fmap_2, list_elem_of_filter;
        (split; [by rewrite Hact|]);
        apply elem_of_app; right; apply list_elem_of_here. }
  split; [|split].
  - intros e He Hpath.
    destruct (decide (p = "")) as [->|Hp].
    + apply entries_held in He as (w0 & v0 & q & _ & _ & _ & Hq & ->).
      rewrite entry_path_file_obj in Hpath. congruence.
    + by apply (Hin Hp e).
  - intros Hp. split.
    + by apply (Hin Hp (file_obj p v)).
    + by apply count_once.
  - intros pre w' post vs1 u vs2 -> Hvs Hu Hearlier.
    unfold get_state_snapshot.
    by rewrite (collect_remove_later pre w' post vs1 u vs2 p Hvs Hu Hearlier).
Qed.

(** *** Order of enumeration *)

Lemma add_folders_spec fs : ∀ l,
  ∃ rest, foldl add_folder l fs = l ++ rest ∧ NoDup rest
          ∧ ∀ f, f ∈ rest ↔ f ∈ fs ∧ f ∉ l.
Proof.
  induction fs as [|f fs IH]; intros l; simpl.
  - exists []. rewrite app_nil_r. split; [done|]. split; [constructor|].
    intros f. rewrite !elem_of_nil. tauto.
  - unfold add_folder at 2. case_bool_decide as Hf.
    + destruct (IH l) as (rest & -> & Hnd & Hrest). exists rest.
      split; [done|]. split; [done|]. intros g. rewrite Hrest, elem_of_cons.
      split; [tauto|]. intros [[->|?] ?]; tauto.
    + destruct (IH (l ++ [f])) as (rest & -> & Hnd & Hrest). exists (f :: rest).
      split; [by rewrite <- app_assoc|]. split.
      * constructor; [|done]. rewrite Hrest, elem_of_app, list_elem_of_singleton. tauto.
      * intros g. rewrite !elem_of_cons, Hrest, elem_of_app, list_elem_of_singleton.
        destruct (decide (g = f)) as [->|]; tauto.
Qed.

(** Where a folder lands: behind the folders that were there and those
    that come before its first occurrence. *)
Lemma add_folders_order fs : ∀ l l1 f l2,
  fs = l1 ++ f :: l2 → f ∉ l1 → f ∉ l →
  ∃ o1 o2, foldl add_folder l fs = o1 ++ f :: o2
           ∧ ∀ g, g ∈ o1 ↔ g ∈ l ∨ g ∈ l1.
Proof.
  induction fs as [|f0 fs IH]; intros l l1 f l2 Hfs Hl1 Hl.
  { by destruct l1. }
  destruct l1 as [|f1 l1]; simpl in Hfs; injection Hfs as -> ->.
  - simpl. unfold add_folder at 2. rewrite bool_decide_eq_false_2 by done.
    destruct (add_folders_spec l2 (l ++ [f])) as (rest & -> & _).
    exists l, rest. split; [by rewrite <- app_assoc|].
    intros g. rewrite elem_of_nil. tauto.
  - apply not_elem_of_cons in Hl1 as [Hne Hl1].
    destruct (IH (add_folder l f1) l1 f l2 eq_refl Hl1) as (o1 & o2 & Hout & Ho1).
    { unfold add_folder. case_bool_decide; [done|].
      rewrite elem_of_app, list_elem_of_singleton. tauto. }
    exists o1, o2. split; [exact Hout|].
    intros g. rewrite Ho1, elem_of_cons. unfold add_folder.
    case_bool_decide as Hf1.
    + split; [tauto|]. intros [?|[->|?]]; tauto.
    + rewrite elem_of_app, list_elem_of_singleton. tauto.
Qed.

Lemma filter_none {A} (P : A → Prop) `{∀ x, Decision (P x)} (l : list A) :
  (∀ x, x ∈ l → ¬ P x) → filter P l = [].
Proof.
  induction l as [|x l IH]; intros Hl; [done|].
  rewrite filter_cons_False by (apply Hl, list_elem_of_here).
  apply IH. intros y Hy. by apply Hl, list_elem_of_further.
Qed.

(** The active entries that one window adds: the first view backed by
    the window's active file, if that file was not seen before. *)
Lemma active_in_window seen w p vs1 v vs2 :
  active_file_in_window w = Some p → p ≠ "" → p ∉ seen →
  views w = vs1 ++ v :: vs2 → file_name v = Some p →
  (∀ u, u ∈ vs1 → file_name u ≠ Some p) →
  filter is_active (first_seen seen (occurrences_of w)) = [(Some p, v)].
Proof.
  intros Ha Hp Hs Hvs Hv Hvs1. unfold occurrences_of. rewrite Ha, Hvs, fmap_app, fmap_cons.
  assert (Hnone : ∀ s (l : list View), (p ∈ s ∨ ∀ u, u ∈ l → file_name u ≠ Some p) →
    filter is_active (first_seen s ((λ u, (Some p, u)) <$> l)) = []).
  { intros s l Hsl. apply filter_none. intros y Hy Hact.
    apply first_seen_elem in Hy as (Hy & q & Hq & _ & Hns).
    apply list_elem_of_fmap in Hy as (u & -> & Hu).
    unfold is_active in Hact. simpl in *. apply bool_decide_unpack in Hact.
    unfold holds_path in Hq. simpl in Hq.
    assert (q = p) as -> by congruence.
    destruct Hsl as [?|Hl]; [done|]. by apply (Hl u). }
  rewrite (first_seen_split seen _ (Some p, v) _ p); try done.
  - rewrite filter_app, filter_cons_True by (unfold is_active; simpl; by rewrite Hv, bool_decide_eq_true_2).
    rewrite !Hnone; [done| |by right].
    left. apply elem_of_union. left. by apply elem_of_singleton.
  - intros y Hy. apply list_elem_of_fmap in Hy as (u & -> & Hu). by apply Hvs1.
Qed.

Lemma collect_prefix back front :
  ∃ ea eo ef,
    active_files (collect (back ++ front)) = active_files (collect front) ++ ea
    ∧ other_files (collect (back ++ front)) = other_files (collect front) ++ eo
    ∧ project_folders (collect (back ++ front)) = project_folders (collect front) ++ ef.
Proof.
  rewrite !collect_spec; simpl.
  rewrite occurrences_app, first_seen_app, !filter_app, !fmap_app.
  rewrite reverse_app, bind_app, foldl_app.
  destruct (add_folders_spec (reverse back ≫= folders)
              (foldl add_folder [] (reverse front ≫= folders))) as (ef & -> & _).
  by eexists _, _, ef.
Qed.

(** C6.  The windows are visited from the last of the native order to the
    first.  What the windows at the end of the native order, the ones in
    front, put into [activeFiles] and [projectFolders] comes first,
    whatever windows lie behind them.  With the two windows [W2; W1] in
    native order, so [W1] in front: if both have an active file that one
    of their views is backed by, and no view of [W1] is backed by the
    active file of [W2], then [activeFiles] is the entry of [W1] followed
    by that of [W2]; and [projectFolders] is the folders of [W1], then
    those of [W2] that [W1] does not have, without a duplicate.  The
    folders keep the order in which they are met, in the folders of [W1]
    followed by those of [W2]: each stands behind exactly the folders
    that occur before its first occurrence. *)
Theorem frontmost_first now :
  (∀ back front, ∃ ea ef,
     activeFiles (get_state_snapshot (back ++ front) now)
       = activeFiles (get_state_snapshot front now) ++ ea
     ∧ projectFolders (get_state_snapshot (back ++ front) now)
       = projectFolders (get_state_snapshot front now) ++ ef)
  ∧ (∀ W1 W2 p1 p2,
       active_file_in_window W1 = Some p1 → active_file_in_window W2 = Some p2 →
       p1 ≠ "" → p2 ≠ "" →
       (∃ v, v ∈ views W1 ∧ file_name v = Some p1) →
       (∃ v, v ∈ views W2 ∧ file_name v = Some p2) →
       (∀ u, u ∈ views W1 → file_name u ≠ Some p2) →
       ∃ v1 v2, v1 ∈ views W1 ∧ v2 ∈ views W2 ∧
         activeFiles (get_state_snapshot [W2; W1] now)
         = [JObj [("path", JStr p1); ("selection", selection_info v1)];
            JObj [("path", JStr p2); ("selection", selection_info v2)]])
  ∧ (∀ W1 W2, ∃ front rest,
       projectFolders (get_state_snapshot [W2; W1] now) = JStr <$> (front ++ rest)
       ∧ projectFolders (get_state_snapshot [W1] now) = JStr <$> front
       ∧ NoDup (front ++ rest)
       ∧ (∀ f, f ∈ front ↔ f ∈ folders W1)
       ∧ (∀ f, f ∈ rest ↔ f ∈ folders W2 ∧ f ∉ folders W1))
  ∧ (∀ W1 W2 l1 f l2,
       folders W1 ++ folders W2 = l1 ++ f :: l2 → f ∉ l1 →
       ∃ o1 o2,
         projectFolders (get_state_snapshot [W2; W1] now)
         = JStr <$> (o1 ++ f :: o2)
         ∧ NoDup (o1 ++ f :: o2)
         ∧ (∀ g, g ∈ o1 ↔ g ∈ l1)).
Proof.
  split; [|split; [|split]].
  - intros back front. rewrite !snapshot_activeFiles, !snapshot_projectFolders.
    destruct (collect_prefix back front) as (ea & _ & ef & -> & _ & ->).
    exists ea, (JStr <$> ef). by rewrite fmap_app.
  - intros W1 W2 p1 p2 Ha1 Ha2 Hp1 Hp2 Hin1 Hin2 Hout.
    destruct (first_in_list (λ u, file_name u = Some p1) (views W1) Hin1)
      as (us1 & v1 & us2 & Hvs1 & Hv1 & Hfirst1).
    destruct (first_in_list (λ u, file_name u = Some p2) (views W2) Hin2)
      as (ts1 & v2 & ts2 & Hvs2 & Hv2 & Hfirst2).
    exists v1, v2.
    split; [rewrite Hvs1; apply elem_of_app; right; apply list_elem_of_here|].
    split; [rewrite Hvs2; apply elem_of_app; right; apply list_elem_of_here|].
    rewrite snapshot_activeFiles, collect_spec; simpl.
    change (occurrences [W2; W1]) with (occurrences_of W1 ++ occurrences_of W2 ++ []).
    rewrite app_nil_r, first_seen_app, filter_app.
    rewrite (active_in_window ∅ W1 p1 us1 v1 us2), (active_in_window _ W2 p2 ts1 v2 ts2);
      try done.
    + simpl. unfold entry_of; simpl. by rewrite Hv1, Hv2.
    + rewrite elem_of_mark. intros [Hc|(_ & x & Hx & Hh)]; [by apply elem_of_empty in Hc|].
      apply list_elem_of_fmap in Hx as (u & -> & Hu). by apply (Hout u).
  - intros W1 W2. rewrite !snapshot_projectFolders, !collect_spec; simpl.
    rewrite !app_nil_r, foldl_app.
    destruct (add_folders_spec (folders W1) []) as (front & -> & Hnd1 & Hfront).
    destruct (add_folders_spec (folders W2) ([] ++ front)) as (rest & -> & Hnd2 & Hrest).
    simpl in *. exists front, rest. split; [done|]. split; [done|].
    assert (Hf : ∀ f, f ∈ front ↔ f ∈ folders W1).
    { intros f. rewrite Hfront, elem_of_nil. tauto. }
    assert (Hr : ∀ f, f ∈ rest ↔ f ∈ folders W2 ∧ f ∉ folders W1).
    { intros f. rewrite Hrest, Hf. tauto. }
    split; [|done]. apply NoDup_app. split; [done|]. split; [|done].
    intros f Hin. rewrite Hrest. tauto.
  - intros W1 W2 l1 f l2 Hfs Hl1.
    rewrite snapshot_projectFolders, collect_spec; simpl.
    rewrite app_nil_r.
    destruct (add_folders_order (folders W1 ++ folders W2) [] l1 f l2 Hfs Hl1)
      as (o1 & o2 & Hout & Ho1); [apply not_elem_of_nil|].
    exists o1, o2. split; [by rewrite Hout|]. split.
    + rewrite <- Hout.
      destruct (add_folders_spec (folders W1 ++ folders W2) [])
        as (out & -> & Hnd & _). done.
    + intros g. rewrite Ho1, elem_of_nil. tauto.
Qed.

(** The entry with the path [p] is the one built from the first view
    backed by [p]. *)
Lemma entry_first_holder ws p w v :
  first_holder ws p w v → p ≠ "" →
  ∀ e, e ∈ active_files (collect ws) ++ other_files (collect ws)
       ∧ entry_path e = Some p
       ↔ e = file_obj p v.
Proof.
  intros Hfirst Hp e.
  assert (Hv : holds_path p (active_file_in_window w, v)).
  { by destruct Hfirst as (? & ? & ? & ? & _ & _ & ? & _). }
  destruct (first_seen_first_holder ws p w v Hp Hfirst) as (F1 & F2 & HF & Hrest).
  rewrite collect_spec; simpl. rewrite HF. split.
  - intros [He Hpath].
    assert (∃ x, x ∈ F1 ++ (active_file_in_window w, v) :: F2 ∧ e = entry_of x)
      as (x & Hx & ->).
    { apply elem_of_app in He as [He|He];
        apply list_elem_of_fmap in He as (x & -> & Hx);
        apply list_elem_of_filter in Hx as [_ Hx]; by exists x. }
    assert (x = (active_file_in_window w, v) ∨ x ∈ F1 ++ F2) as [->|Hx'].
    { rewrite elem_of_app, elem_of_cons in Hx. rewrite elem_of_app. tauto. }
    + by apply (entry_of_holds p).
    + destruct (Hrest x Hx') as (q & Hq & Hne).
      rewrite (entry_of_holds q x Hq), entry_path_file_obj in Hpath. congruence.
  - intros ->. split; [|done].
    assert (Hobj : entry_of (active_file_in_window w, v) = file_obj p v)
      by apply (entry_of_holds p _ Hv).
    rewrite <- Hobj.
    destruct (is_active (active_file_in_window w, v)) eqn:Hact;
      [apply elem_of_app; left|apply elem_of_app; right];
      apply list_elem_of_fmap_2, list_elem_of_filter;
      (split; [by rewrite Hact|]);
      apply elem_of_app; right; apply list_elem_of_here.
Qed.

(** C3.  The entries of the snapshot are the objects that pair a path [p],
    not empty, with [selection_info] of the first view backed by [p]
    that the loops reach: every entry is such an object, and every such
    view has its entry, so its selection is in the snapshot.
    [selection_info] is [null] for a view without a region.  Otherwise
    it reads the first region alone, whatever regions follow: an empty
    one at row [r], column [c] gives
    [{"cursor": {"line": r + 1, "column": c}}], and one that is not empty,
    from [(r1, c1)] to [(r2, c2)], gives [{"start": ..., "end": ...}]
    with the lines [r1 + 1] and [r2 + 1].  The two examples: row 3,
    column 5 gives line 4, column 5; rows 0 and 1 give lines 1 and 2. *)
Theorem selection_shape :
  (∀ ws now e,
     e ∈ activeFiles (get_state_snapshot ws now)
         ++ otherFiles (get_state_snapshot ws now)
     ↔ ∃ w v p, first_holder ws p w v ∧ p ≠ "" ∧
         e = JObj [("path", JStr p); ("selection", selection_info v)])
  ∧ (∀ v, sel v = [] → selection_info v = JNull)
  ∧ (∀ v region rest r c,
       sel v = region :: rest → a region = b region →
       rowcol v (a region) = (r, c) →
       selection_info v
       = JObj [("cursor", JObj [("line", JInt (r + 1)); ("column", JInt c)])])
  ∧ (∀ v region rest r1 c1 r2 c2,
       sel v = region :: rest → a region ≠ b region →
       rowcol v (begin region) = (r1, c1) → rowcol v (end_ region) = (r2, c2) →
       selection_info v
       = JObj [("start", JObj [("line", JInt (r1 + 1)); ("column", JInt c1)]);
               ("end", JObj [("line", JInt (r2 + 1)); ("column", JInt c2)])])
  ∧ (∀ v region rest,
       sel v = region :: rest → a region = b region →
       rowcol v (a region) = (3, 5) →
       selection_info v
       = JObj [("cursor", JObj [("line", JInt 4); ("column", JInt 5)])])
  ∧ (∀ v region rest,
       sel v = region :: rest → a region ≠ b region →
       rowcol v (begin region) = (0, 0) → rowcol v (end_ region) = (1, 2) →
       selection_info v
       = JObj [("start", JObj [("line", JInt 1); ("column", JInt 0)]);
               ("end", JObj [("line", JInt 2); ("column", JInt 2)])]).
Proof.
  assert (Hcursor : ∀ v region rest r c,
       sel v = region :: rest → a region = b region →
       rowcol v (a region) = (r, c) →
       selection_info v
       = JObj [("cursor", JObj [("line", JInt (r + 1)); ("column", JInt c)])]).
  { intros v region rest r c Hsel Hab Hrc. unfold selection_info. rewrite Hsel.
    unfold empty, begin. rewrite <- Hab, Z.eqb_refl, Z.min_id, Hrc. reflexivity. }
  assert (Hrange : ∀ v region rest r1 c1 r2 c2,
       sel v = region :: rest → a region ≠ b region →
       rowcol v (begin region) = (r1, c1) → rowcol v (end_ region) = (r2, c2) →
       selection_info v
       = JObj [("start", JObj [("line", JInt (r1 + 1)); ("column", JInt c1)]);
               ("end", JObj [("line", JInt (r2 + 1)); ("column", JInt c2)])]).
  { intros v region rest r1 c1 r2 c2 Hsel Hab Hb He. unfold selection_info.
    rewrite Hsel. unfold empty. apply Z.eqb_neq in Hab. rewrite Hab. simpl.
    rewrite Hb, He. reflexivity. }
  split; [|split; [|split; [|split; [|split]]]].
  - intros ws now e. rewrite snapshot_activeFiles, snapshot_otherFiles. split.
    + intros He.
      destruct (entries_held ws e He) as (w0 & v0 & q & Hw & Hv & Hq & Hne & Heq).
      destruct (first_holder_exists ws q) as (w & v & Hfirst);
        [by exists w0, v0|].
      exists w, v, q. split; [done|]. split; [done|].
      apply (entry_first_holder ws q w v Hfirst Hne e). split; [done|].
      rewrite Heq. apply entry_path_file_obj.
    + intros (w & v & p & Hfirst & Hp & ->).
      by apply (entry_first_holder ws p w v Hfirst Hp (file_obj p v)).
  - intros v Hsel. unfold selection_info. by rewrite Hsel.
  - exact Hcursor.
  - exact Hrange.
  - intros v region rest Hsel Hab Hrc. by apply (Hcursor v region rest 3 5).
  - intros v region rest Hsel Hab Hb He. by apply (Hrange v region rest 0 0 1 2).
Qed.

(** * Properties of the request handler *)


Section HandlerProperties.
Context `{PyRuntime}.
Variable windows : list Window.
Variable now : string.

Lemma serve_POST_on_body fate r body :
  read_body r = Ok body →
  serve_POST_on windows now fate r =
  let '(fr, outcome) := respond windows now body (connection fate) in
  (wfile fr, outcome).
Proof.
  intros Hbody. unfold serve_POST_on, do_POST, mbind, M_bind, lift.
  by rewrite Hbody.
Qed.

(** The dispatcher returned: the response with status 200, and, when a
    write of it raises, the response with status 500 for that
    exception on what is left of the connection. *)
Lemma respond_ok_on fate body request response :
  json_loads body = Ok request →
  handle_mcp_request windows now request = Ok response →
  (let '(fr, outcome) := respond windows now body (connection fate) in
   (wfile fr, outcome))
  = match fate with
    | Some e :: rest =>
      delivered rest (json_headers 200) 500 (internal_error e request)
    | None :: Some e :: rest =>
      let '(events, outcome) :=
        delivered rest [] 500 (internal_error e request) in
      (json_headers 200 ++ events, outcome)
    | _ => (json_headers 200 ++ [WfileWrite (json_dumps None response)], Ok tt)
    end.
Proof.
  intros Hparse Hhandle.
  unfold respond, try_except, mbind, M_bind, lift. rewrite Hparse. simpl.
  rewrite Hhandle.
  destruct fate as [|[e1|] [|[e2|] [|[e3|] [|[e4|] rest]]]];
    try reflexivity; by destruct request.
Qed.

Lemma respond_handler_raises_on fate body request e :
  json_loads body = Ok request →
  handle_mcp_request windows now request = Raise e →
  (let '(fr, outcome) := respond windows now body (connection fate) in
   (wfile fr, outcome))
  = delivered fate [] 500 (internal_error e request).
Proof.
  intros Hparse Hhandle.
  unfold respond, try_except, mbind, M_bind, lift. rewrite Hparse. simpl.
  rewrite Hhandle. simpl.
  by destruct request, fate as [|[e1|] [|[e2|] rest]].
Qed.

Lemma respond_parse_raises_on fate body e :
  json_loads body = Raise e →
  (let '(fr, outcome) := respond windows now body (connection fate) in
   (wfile fr, outcome))
  = ([], Raise (Exn UnboundLocalError
                  "local variable 'request' referenced before assignment")).
Proof.
  intros Hparse.
  unfold respond, try_except, mbind, M_bind, lift. by rewrite Hparse.
Qed.

Lemma serve_POST_body r body :
  read_body r = Ok body →
  serve_POST windows now r =
  let '(fr, outcome) := respond windows now body fresh_frame in (wfile fr, outcome).
Proof. apply (serve_POST_on_body []). Qed.

Lemma respond_ok body request response :
  json_loads body = Ok request →
  handle_mcp_request windows now request = Ok response →
  (let '(fr, outcome) := respond windows now body fresh_frame in
   (wfile fr, outcome))
  = (json_headers 200 ++ [WfileWrite (json_dumps None response)], Ok tt).
Proof. apply (respond_ok_on []). Qed.

Lemma respond_handler_raises body request e :
  json_loads body = Ok request →
  handle_mcp_request windows now request = Raise e →
  (let '(fr, outcome) := respond windows now body fresh_frame in
   (wfile fr, outcome))
  = (json_headers 500 ++
       [WfileWrite (json_dumps None
          (failure (-32603) (message e)
             (match request with
              | JObj members => dict_get members "id" JNull
              | _ => JNull
              end)))],
     Ok tt).
Proof. apply (respond_handler_raises_on [] body request e). Qed.

Lemma respond_parse_raises body e :
  json_loads body = Raise e →
  (let '(fr, outcome) := respond windows now body fresh_frame in
   (wfile fr, outcome))
  = ([], Raise (Exn UnboundLocalError
                  "local variable 'request' referenced before assignment")).
Proof. apply (respond_parse_raises_on []). Qed.

Lemma eq_str_false v lit : v ≠ JStr lit → eq_str v lit = false.
Proof.
  intros Hne. destruct v; try done. simpl.
  apply bool_decide_eq_false_2. congruence.
Qed.


(** C9.  When the body of a POST request decodes to a JSON value that is
  not an object, [handle_mcp_request] raises [AttributeError]; [do_POST]
  catches it, answers with status 500 and the JSON-RPC error of code
  -32603 whose [id] is [null], and returns. *)
Theorem non_object_body r body request :
  read_body r = Ok body → json_loads body = Ok request →
  is_dict request = false →
  handle_mcp_request windows now request
  = Raise (Exn AttributeError
             ("'" +:+ type_name request +:+ "' object has no attribute 'get'"))
  ∧ serve_POST windows now r
    = ([SendResponse 500; SendHeader "Content-type" "application/json";
        EndHeaders;
        WfileWrite (json_dumps None
          (JObj [("jsonrpc", JStr "2.0");
                 ("error", JObj [("code", JInt (-32603));
                                 ("message",
                                  JStr ("'" +:+ type_name request
                                        +:+ "' object has no attribute 'get'"))]);
                 ("id", JNull)]))],
       Ok tt).
Proof.
  intros Hbody Hparse Hdict.
  assert (Hraise : handle_mcp_request windows now request
    = Raise (Exn AttributeError
               ("'" +:+ type_name request +:+ "' object has no attribute 'get'"))).
  { by destruct request. }
  split; [done|].
  rewrite (serve_POST_body r body Hbody).
  rewrite (respond_handler_raises body request _ Hparse Hraise).
  by destruct request.
Qed.

(** C1.  What [do_POST] does with a body that is not JSON: [json.loads]
  raises before line 117 assigns [request], and the handler of line 124
  reads [request] in line 131, so [UnboundLocalError] leaves [do_POST]
  and nothing is sent, neither the status 500 nor the error of code
  -32603.  A body that is not UTF-8 is decoded in line 114, outside of
  the [try]: that exception leaves [do_POST] as well. *)
Theorem malformed_body_escapes r :
  (∀ body e,
     read_body r = Ok body → json_loads body = Raise e →
     serve_POST windows now r
     = ([], Raise (Exn UnboundLocalError
                     "local variable 'request' referenced before assignment")))
  ∧ (∀ e, read_body r = Raise e → serve_POST windows now r = ([], Raise e)).
Proof.
  split.
  - intros body e Hbody Hparse.
    rewrite (serve_POST_body r body Hbody).
    by rewrite (respond_parse_raises body e Hparse).
  - intros e Hbody. unfold serve_POST, do_POST, mbind, M_bind, lift.
    by rewrite Hbody.
Qed.


End HandlerProperties.

(** * Properties of the life cycle *)

Section LifeCycle.
Context `{Kernel}.

(** The constructor of [TCPServer] by the port that the bind gets. *)
Lemma TCPServer_new_spec p o :
  match bound_port p o with
  | Some q =>
    TCPServer_new ("127.0.0.1", p) o
    = (holding q o,
       Ok {| server_address := ("127.0.0.1", q);
             allow_reuse_address := false;
             sock := {| so_reuseaddr := false; bound_to := Some ("127.0.0.1", q);
                        listening := true |} |})
  | None => ∃ e, TCPServer_new ("127.0.0.1", p) o = (o, Raise e)
  end.
Proof.
  unfold bound_port, TCPServer_new, server_bind, bind, hold, mbind, M_bind,
    get_state, lift, modify, mret, M_ret. simpl.
  destruct (p =? 0) eqn:Hzero.
  { apply Z.eqb_eq in Hzero as ->. simpl.
    destruct (ephemeral_port o) as [chosen|]; [|by eexists].
    destruct (vacant o chosen); [done|by eexists]. }
  unfold vacant. apply Z.eqb_neq in Hzero.
  destruct (p <? 0) eqn:Hneg; simpl.
  { rewrite (proj2 (Z.leb_gt 1 p)) by (apply Z.ltb_lt in Hneg; lia).
    simpl. by eexists. }
  rewrite (proj2 (Z.leb_le 1 p)) by (apply Z.ltb_ge in Hneg; lia). simpl.
  destruct (65535 <? p) eqn:Hbig; simpl.
  { rewrite (proj2 (Z.leb_gt p 65535)) by (by apply Z.ltb_lt). simpl. by eexists. }
  rewrite (proj2 (Z.leb_le p 65535)) by (by apply Z.ltb_ge). simpl.
  destruct (bool_decide (p ∈ in_use o)); simpl; [by eexists|].
  destruct (bool_decide (p ∈ in_teardown o)); simpl; [by eexists|done].
Qed.

Lemma TCPServer_new_raises address o o' e :
  TCPServer_new address o = (o', Raise e) → o' = o.
Proof.
  unfold TCPServer_new, server_bind, bind, hold, mbind, M_bind, get_state,
    lift, modify, mret, M_ret.
  simpl.
  destruct ((address.2 <? 0) || (65535 <? address.2)); simpl; [congruence|].
  destruct (address.2 =? 0).
  { destruct (ephemeral_port o) as [chosen|]; simpl; [|congruence].
    destruct (vacant o chosen); simpl; congruence. }
  destruct (bool_decide (address.2 ∈ in_use o)
            || bool_decide (address.2 ∈ in_teardown o) && true); simpl; congruence.
Qed.

(** The socket of a server that the constructor returns: bound without
    the option, to the port asked for unless that is 0. *)
Lemma TCPServer_new_socket address o o' srv :
  TCPServer_new address o = (o', Ok srv) →
  allow_reuse_address srv = false ∧ so_reuseaddr (sock srv) = false
  ∧ ∃ q, bound_to (sock srv) = Some (address.1, q)
         ∧ (address.2 ≠ 0 → q = address.2).
Proof.
  unfold TCPServer_new, server_bind, bind, hold, mbind, M_bind, get_state,
    lift, modify, mret, M_ret.
  simpl.
  destruct ((address.2 <? 0) || (65535 <? address.2)); simpl; [congruence|].
  destruct (address.2 =? 0) eqn:Hzero.
  { apply Z.eqb_eq in Hzero.
    destruct (ephemeral_port o) as [chosen|]; simpl; [|congruence].
    destruct (vacant o chosen); simpl; [|congruence].
    intros [= <- <-]. simpl. split; [done|]. split; [done|].
    exists chosen. split; [done|]. congruence. }
  destruct (bool_decide (address.2 ∈ in_use o)
            || bool_decide (address.2 ∈ in_teardown o) && true); simpl; [congruence|].
  intros [= <- <-]. simpl. split; [done|]. split; [done|].
  exists address.2. by destruct address.
Qed.

Lemma start_running me o :
  running me = true → start (me, o) = ((me, o), Ok tt).
Proof.
  intros Hrun. unfold start, self, mbind, M_bind. simpl. by rewrite Hrun.
Qed.

Lemma start_bind_fails me o o' e :
  running me = false →
  TCPServer_new (loopback (port me)) o = (o', Raise e) →
  start (me, o)
  = ((me, printed o ("EditorContextMCP: Failed to start server: " +:+ message e)),
     Ok tt).
Proof.
  intros Hrun Hnew. pose proof (TCPServer_new_raises _ _ _ _ Hnew) as ->.
  unfold start, self, mbind, M_bind. simpl. rewrite Hrun.
  unfold try_except, in_os, mbind, M_bind. simpl.
  unfold loopback in Hnew. rewrite Hnew. simpl. by destruct me.
Qed.

Lemma start_returns me o : ∃ me' o', start (me, o) = ((me', o'), Ok tt).
Proof.
  destruct (running me) eqn:Hrun.
  - eexists _, _. by apply start_running.
  - destruct (TCPServer_new (loopback (port me)) o) as [o' [srv|e]] eqn:Hnew.
    + unfold start, self, mbind, M_bind. simpl. rewrite Hrun.
      unfold try_except, in_os, mbind, M_bind. simpl.
      unfold loopback in Hnew. rewrite Hnew. simpl.
      unfold Thread_start, mbind, M_bind, get_state. simpl.
      destruct (threads_left o'); simpl; by eexists _, _.
    + eexists _, _. by apply (start_bind_fails me o o' e).
Qed.

(** C8.  [start] returns, it does not raise.  On a server that is running
    it changes nothing.  When the constructor of [TCPServer] raises, as it
    does when the port cannot be bound, the instance is as it was, so
    [running] stays false and [server] stays what it was, [None] on an
    instance fresh from [__init__]; the console gets one line with the
    message of the exception, and nothing else changes. *)
Theorem start_never_raises me o :
  (∃ me' o', start (me, o) = ((me', o'), Ok tt))
  ∧ (running me = true → start (me, o) = ((me, o), Ok tt))
  ∧ (∀ o' e,
       running me = false →
       TCPServer_new ("127.0.0.1", port me) o = (o', Raise e) →
       start (me, o)
       = ((me,
           {| in_use := in_use o; in_teardown := in_teardown o;
              threads_left := threads_left o;
              console := console o ++
                ["EditorContextMCP: Failed to start server: " +:+ message e] |}),
          Ok tt))
  ∧ (∀ o' e,
       me = MCPServer_init (port me) →
       TCPServer_new ("127.0.0.1", port me) o = (o', Raise e) →
       ∃ o'',
         start (me, o)
         = (({| port := port me; server := None; thread := None; running := false |},
             o''), Ok tt)).
Proof.
  split; [apply start_returns|]. split; [apply start_running|]. split.
  - intros o' e Hrun Hnew. apply (start_bind_fails me o o' e Hrun Hnew).
  - intros o' e Hinit Hnew.
    assert (Hrun : running me = false) by (by rewrite Hinit).
    rewrite (start_bind_fails me o o' e Hrun Hnew).
    eexists. by rewrite Hinit at 1.
Qed.

(** Whenever [start] brings the server up, the socket was bound without
    the option, whatever the attribute says afterwards. *)
Lemma started_without_reuse me o me' o' :
  running me = false → start (me, o) = ((me', o'), Ok tt) → running me' = true →
  ∃ srv q, server me' = Some srv ∧ allow_reuse_address srv = true
           ∧ so_reuseaddr (sock srv) = false
           ∧ bound_to (sock srv) = Some ("127.0.0.1", q)
           ∧ (port me ≠ 0 → q = port me).
Proof.
  intros Hrun Hstart Hup.
  destruct (TCPServer_new (loopback (port me)) o) as [o1 [srv|e]] eqn:Hnew.
  - destruct (TCPServer_new_socket _ _ _ _ Hnew) as (_ & Hso & q & Hbound & Hq).
    revert Hstart. unfold start, self, mbind, M_bind. simpl. rewrite Hrun.
    unfold try_except, in_os, mbind, M_bind. simpl.
    unfold loopback in Hnew. rewrite Hnew. simpl.
    unfold Thread_start, mbind, M_bind, get_state. simpl.
    destruct (threads_left o1); simpl; intros [= <- <-]; simpl;
      by exists {| server_address := server_address srv;
                   allow_reuse_address := true; sock := sock srv |}, q.
  - rewrite (start_bind_fails me o o1 e Hrun Hnew) in Hstart.
    injection Hstart as <- <-. congruence.
Qed.

(** C7.  [start] on a port still in teardown: the socket is bound inside
    the constructor of [TCPServer] with [SO_REUSEADDR] off, since line 228
    sets [allow_reuse_address] after the constructor has returned; binding
    is refused and the server does not come up.  On a free port the
    server comes up with the attribute set and the option of its socket
    still off. *)
Theorem reuse_set_after_bind :
  start (MCPServer_init 8765, Sample.restarting)
  = ((MCPServer_init 8765,
      {| in_use := []; in_teardown := [8765]; threads_left := true;
         console := ["EditorContextMCP: Failed to start server: [Errno 98] Address already in use"] |}),
     Ok tt)
  ∧ start (MCPServer_init 8765, Sample.idle)
    = (({| port := 8765;
           server := Some {| server_address := ("127.0.0.1", 8765);
                             allow_reuse_address := true;
                             sock := {| so_reuseaddr := false;
                                        bound_to := Some ("127.0.0.1", 8765);
                                        listening := true |} |};
           thread := Some {| daemon := true; alive := true |};
           running := true |},
        {| in_use := [8765]; in_teardown := []; threads_left := true;
           console := ["EditorContextMCP: Server started on http://127.0.0.1:8765"] |}),
       Ok tt).
Proof. split; reflexivity. Qed.

End LifeCycle.

(** * The theorems at the sample inputs *)

Lemma start_never_raises_witness :
  start (MCPServer_init 8765, Sample.occupied)
  = ((MCPServer_init 8765,
      {| in_use := [8765]; in_teardown := []; threads_left := true;
         console := ["EditorContextMCP: Failed to start server: [Errno 98] Address already in use"] |}),
     Ok tt).
Proof.
  apply (proj1 (proj2 (proj2 (start_never_raises (MCPServer_init 8765) Sample.occupied)))
           Sample.occupied (Exn OSError "[Errno 98] Address already in use"));
    reflexivity.
Defined.


Lemma dedup_invariant_witness :
  (count_path "/work/app/main.py"
     (activeFiles (get_state_snapshot Sample.windows Sample.clock))
   + count_path "/work/app/main.py"
       (otherFiles (get_state_snapshot Sample.windows Sample.clock)) = 1)%nat.
Proof.
  apply (dedup_invariant Sample.windows Sample.clock "/work/app/main.py").
  - discriminate.
  - exists Sample.W2, Sample.main_py_clone. split; [|split; [|reflexivity]].
    + apply list_elem_of_here.
    + apply list_elem_of_further, list_elem_of_here.
Defined.

Lemma sample_first_holder :
  first_holder Sample.windows "/work/app/main.py" Sample.W1 Sample.main_py.
Proof.
  exists [Sample.W2], [], [], [Sample.util_py].
  split; [reflexivity|]. split; [reflexivity|]. split; [reflexivity|]. split.
  - intros u Hu. by apply elem_of_nil in Hu.
  - intros w u Hw. by apply elem_of_nil in Hw.
Defined.

Lemma selection_shape_witness :
  JObj [("path", JStr "/work/app/main.py");
        ("selection",
         JObj [("cursor", JObj [("line", JInt 4); ("column", JInt 5)])])]
    ∈ activeFiles (get_state_snapshot Sample.windows Sample.clock)
      ++ otherFiles (get_state_snapshot Sample.windows Sample.clock)
  ∧ JObj [("path", JStr "/work/app/util.py");
          ("selection",
           JObj [("start", JObj [("line", JInt 1); ("column", JInt 0)]);
                 ("end", JObj [("line", JInt 2); ("column", JInt 2)])])]
      ∈ activeFiles (get_state_snapshot Sample.windows Sample.clock)
        ++ otherFiles (get_state_snapshot Sample.windows Sample.clock).
Proof.
  destruct selection_shape as (Hentries & _ & _ & _ & Hcursor & Hrange). split.
  - rewrite <- (Hcursor Sample.main_py {| a := 125; b := 125 |}
                  [{| a := 300; b := 310 |}] eq_refl eq_refl eq_refl).
    apply Hentries. exists Sample.W1, Sample.main_py, "/work/app/main.py".
    split; [exact sample_first_holder|]. split; [discriminate|reflexivity].
  - assert (Hne : a {| a := 42; b := 0 |} ≠ b {| a := 42; b := 0 |})
      by discriminate.
    rewrite <- (Hrange Sample.util_py {| a := 42; b := 0 |} [] eq_refl Hne
                  eq_refl eq_refl).
    apply Hentries. exists Sample.W1, Sample.util_py, "/work/app/util.py".
    split; [|split; [discriminate|reflexivity]].
    exists [Sample.W2], [], [Sample.main_py], [].
    split; [reflexivity|]. split; [reflexivity|]. split; [reflexivity|]. split.
    + intros u Hu. apply elem_of_cons in Hu as [->|Hu]; [discriminate|].
      by apply elem_of_nil in Hu.
    + intros w u Hw. by apply elem_of_nil in Hw.
Defined.

Lemma first_view_wins_witness :
  JObj [("path", JStr "/work/app/main.py");
        ("selection", JObj [("cursor", JObj [("line", JInt 4); ("column", JInt 5)])])]
    ∈ activeFiles (get_state_snapshot Sample.windows Sample.clock)
      ++ otherFiles (get_state_snapshot Sample.windows Sample.clock)
  ∧ get_state_snapshot
      [{| folders := folders Sample.W2; active_view := active_view Sample.W2;
          views := [Sample.untitled; Sample.notes_md] |}; Sample.W1] Sample.clock
    = get_state_snapshot Sample.windows Sample.clock.
Proof.
  destruct (first_view_wins Sample.windows Sample.clock "/work/app/main.py"
              Sample.W1 Sample.main_py sample_first_holder)
    as (_ & Hthere & Hlater).
  split.
  - apply Hthere. discriminate.
  - apply (Hlater [] Sample.W2 [Sample.W1] [Sample.untitled] Sample.main_py_clone
             [Sample.notes_md]); [reflexivity|reflexivity|reflexivity|].
    right. exists Sample.W1, Sample.main_py.
    split; [apply list_elem_of_here|]. split; [apply list_elem_of_here|reflexivity].
Defined.

Lemma frontmost_first_witness :
  (∃ v1 v2, v1 ∈ views Sample.W1 ∧ v2 ∈ views Sample.W2 ∧
     activeFiles (get_state_snapshot [Sample.W2; Sample.W1] Sample.clock)
     = [JObj [("path", JStr "/work/app/main.py"); ("selection", selection_info v1)];
        JObj [("path", JStr "/work/notes.md"); ("selection", selection_info v2)]])
  ∧ (∃ o1 o2,
       projectFolders (get_state_snapshot [Cases.scratch_window; Sample.W1]
                         Sample.clock)
       = JStr <$> (o1 ++ "/work/docs" :: o2)
       ∧ NoDup (o1 ++ "/work/docs" :: o2)
       ∧ ∀ g, g ∈ o1 ↔ g ∈ ["/work/app"]).
Proof.
  destruct (frontmost_first Sample.clock) as (_ & Hactive & _ & Horder). split.
  - apply (Hactive Sample.W1 Sample.W2 "/work/app/main.py" "/work/notes.md");
      try reflexivity; try discriminate.
    + exists Sample.main_py. split; [apply list_elem_of_here|reflexivity].
    + exists Sample.notes_md. split; [|reflexivity].
      apply list_elem_of_further, list_elem_of_further, list_elem_of_here.
    + intros u Hu.
      apply elem_of_cons in Hu as [->|Hu]; [discriminate|].
      apply elem_of_cons in Hu as [->|Hu]; [discriminate|].
      by apply elem_of_nil in Hu.
  - apply (Horder Sample.W1 Cases.scratch_window ["/work/app"] "/work/docs"
             ["/work/app"; "/work/docs"]); [reflexivity|].
    intros Hin. apply elem_of_cons in Hin as [Heq|Hin]; [discriminate|].
    by apply elem_of_nil in Hin.
Defined.


Lemma non_object_body_witness :
  serve_POST Sample.windows Sample.clock (Sample.post "[1, 2]")
  = ([SendResponse 500; SendHeader "Content-type" "application/json"; EndHeaders;
      WfileWrite (Sample.dumps
        (JObj [("jsonrpc", JStr "2.0");
               ("error", JObj [("code", JInt (-32603));
                               ("message",
                                JStr "'list' object has no attribute 'get'")]);
               ("id", JNull)]))],
     Ok tt).
Proof.
  destruct (non_object_body Sample.windows Sample.clock (Sample.post "[1, 2]")
              "[1, 2]" Sample.batch) as [_ Hserve];
    [vm_compute; reflexivity ..|exact Hserve].
Defined.

Lemma malformed_body_escapes_witness :
  serve_POST Sample.windows Sample.clock (Sample.post "not json")
  = ([], Raise (Exn UnboundLocalError
                  "local variable 'request' referenced before assignment")).
Proof.
  destruct (malformed_body_escapes Sample.windows Sample.clock
              (Sample.post "not json")) as [Hparse _].
  apply (Hparse "not json"
           (Exn JSONDecodeError "Expecting value: line 1 column 1 (char 0)"));
    vm_compute; reflexivity.
Defined.


(** * More on the snapshot *)

Lemma first_seen_nil seen occ :
  (∀ x, x ∈ occ → truthy (file_name x.2) = false) → first_seen seen occ = [].
Proof.
  intros Hocc. apply elem_of_nil_inv. intros x Hx.
  apply first_seen_elem in Hx as (Hx & p & Hp & Hne & _).
  specialize (Hocc x Hx). unfold holds_path in Hp. rewrite Hp in Hocc.
  apply truthy_Some in Hne. congruence.
Qed.

(** X1.  When no view has a file (every file name is [None] or empty),
    [activeFiles] and [otherFiles] are empty; without windows the
    snapshot is the three empty lists and the time stamp. *)
Theorem snapshot_without_files ws now :
  (∀ w v, w ∈ ws → v ∈ views w → file_name v = None ∨ file_name v = Some "") →
  activeFiles (get_state_snapshot ws now) = []
  ∧ otherFiles (get_state_snapshot ws now) = []
  ∧ (ws = [] →
     get_state_snapshot ws now
     = JObj [("activeFiles", JArr []); ("otherFiles", JArr []);
             ("projectFolders", JArr []); ("lastUpdated", JStr now)]).
Proof.
  intros Hnone.
  rewrite snapshot_activeFiles, snapshot_otherFiles, collect_spec; simpl.
  rewrite first_seen_nil; [split; [done|split; [done|by intros ->]]|].
  intros x Hx. apply elem_of_occurrences in Hx as (w & Hw & _ & Hv).
  by destruct (Hnone w x.2 Hw Hv) as [->| ->].
Qed.

(** X2.  [projectFolders] has no duplicate, and a folder is in it exactly
    when it is a folder of some window. *)
Theorem project_folders_union ws now :
  ∃ fs, projectFolders (get_state_snapshot ws now) = JStr <$> fs
        ∧ NoDup fs
        ∧ ∀ f, f ∈ fs ↔ ∃ w, w ∈ ws ∧ f ∈ folders w.
Proof.
  rewrite snapshot_projectFolders, collect_spec; simpl.
  destruct (add_folders_spec (reverse ws ≫= folders) []) as (fs & -> & Hnd & Hfs).
  exists fs. split; [done|]. split; [done|].
  intros f. rewrite Hfs, list_elem_of_bind. split.
  - intros [(w & Hf & Hw) _]. rewrite elem_of_reverse in Hw. by exists w.
  - intros (w & Hw & Hf). split; [|apply not_elem_of_nil].
    exists w. by rewrite elem_of_reverse.
Qed.

Lemma active_none_when_seen (a : option string) seen (vs : list View) :
  (∀ p, a = Some p → p ∈ seen) →
  filter is_active (first_seen seen ((λ v, (a, v)) <$> vs)) = [].
Proof.
  intros Hseen. apply filter_none. intros x Hx Hact.
  apply first_seen_elem in Hx as (Hx & q & Hq & _ & Hns).
  apply list_elem_of_fmap in Hx as (v & -> & _).
  unfold is_active in Hact. apply bool_decide_unpack in Hact.
  unfold holds_path in Hq. simpl in *. apply Hns, Hseen. congruence.
Qed.

Lemma active_in_window_le (a : option string) (vs : list View) : ∀ seen,
  (length (filter is_active (first_seen seen ((λ v, (a, v)) <$> vs))) ≤ 1)%nat.
Proof.
  induction vs as [|v vs IH]; intros seen; simpl; [lia|].
  destruct (file_name v) as [q|] eqn:Hq; [|apply IH].
  destruct (truthy (Some q) && negb (bool_decide (q ∈ seen))); [|apply IH].
  rewrite filter_cons. destruct (decide (is_active (a, v))) as [Hact|_]; [|apply IH].
  rewrite active_none_when_seen; [simpl; lia|].
  unfold is_active in Hact. apply bool_decide_unpack in Hact. simpl in Hact.
  intros p ->. apply elem_of_union. left. apply elem_of_singleton. congruence.
Qed.

Lemma active_le_windows (l : list Window) : ∀ seen,
  (length (filter is_active (first_seen seen (l ≫= occurrences_of))) ≤ length l)%nat.
Proof.
  induction l as [|w l IH]; intros seen; [simpl; lia|].
  rewrite bind_cons, first_seen_app, filter_app, length_app.
  pose proof (active_in_window_le (active_file_in_window w) (views w) seen) as Hw.
  specialize (IH (mark seen (occurrences_of w))).
  change (length (w :: l)) with (S (length l)).
  unfold occurrences_of at 1. lia.
Qed.

(** X3.  [activeFiles] has at most one entry for each window, and the path
    of each of its entries is the (non-empty) active file of some
    window. *)
Theorem active_per_window ws now :
  (length (activeFiles (get_state_snapshot ws now)) ≤ length ws)%nat
  ∧ ∀ e, e ∈ activeFiles (get_state_snapshot ws now) →
      ∃ w p, w ∈ ws ∧ active_file_in_window w = Some p ∧ p ≠ ""
             ∧ entry_path e = Some p.
Proof.
  rewrite snapshot_activeFiles, collect_spec; simpl. split.
  - rewrite length_fmap. unfold occurrences.
    pose proof (active_le_windows (reverse ws) ∅) as Hle.
    by rewrite length_reverse in Hle.
  - intros e He. apply list_elem_of_fmap in He as (x & -> & Hx).
    apply list_elem_of_filter in Hx as [Hact Hx].
    apply first_seen_elem in Hx as (Hx & p & Hp & Hne & _).
    apply elem_of_occurrences in Hx as (w & Hw & Ha & _).
    exists w, p. split; [done|].
    unfold is_active in Hact. apply bool_decide_unpack in Hact.
    unfold holds_path in Hp. split; [congruence|]. split; [done|].
    by rewrite (entry_of_holds p x Hp).
Qed.

(** X4.  Two windows with the same active file, held by a view of the
    window in front.  Let [v1] be the first view of the front window
    that is backed by the file: [activeFiles] is the single entry built
    from [v1], with the selection of [v1] also when the focused view is
    a later view of the file, and [otherFiles] has no entry for the
    file; the window behind adds no active entry. *)
Theorem shared_active_file W1 W2 p now us1 v1 us2 :
  active_file_in_window W1 = Some p → active_file_in_window W2 = Some p →
  p ≠ "" →
  views W1 = us1 ++ v1 :: us2 → file_name v1 = Some p →
  (∀ u, u ∈ us1 → file_name u ≠ Some p) →
  activeFiles (get_state_snapshot [W2; W1] now)
  = [JObj [("path", JStr p); ("selection", selection_info v1)]]
  ∧ count_path p (otherFiles (get_state_snapshot [W2; W1] now)) = 0%nat.
Proof.
  intros Ha1 Ha2 Hp Hvs Hv1 Hfirst. split.
  - rewrite snapshot_activeFiles, collect_spec; simpl.
    change (occurrences [W2; W1]) with (occurrences_of W1 ++ occurrences_of W2 ++ []).
    rewrite app_nil_r, first_seen_app, filter_app.
    rewrite (active_in_window ∅ W1 p us1 v1 us2); try done.
    unfold occurrences_of at 2. rewrite active_none_when_seen.
    + simpl. unfold entry_of; simpl. by rewrite Hv1.
    + intros q Hq. rewrite Ha2 in Hq. injection Hq as <-.
      apply elem_of_mark. right. split; [done|].
      exists (active_file_in_window W1, v1). split; [|done].
      unfold occurrences_of. apply list_elem_of_fmap_2.
      rewrite Hvs. apply elem_of_app; right; apply list_elem_of_here.
  - rewrite snapshot_otherFiles.
    assert (Hholder : first_holder [W2; W1] p W1 v1).
    { exists [W2], [], us1, us2. repeat split; try done.
      intros w u Hw. by apply elem_of_nil in Hw. }
    destruct (count_first_holder [W2; W1] p W1 v1 Hp Hholder) as [_ ->].
    by rewrite bool_decide_eq_true_2.
Qed.

(** X5.  When no window has an active file (no focused view, or a focused
    view without a file), [activeFiles] is empty and every file held by
    a view has its one entry in [otherFiles]. *)
Theorem no_focused_file ws now :
  (∀ w, w ∈ ws → active_file_in_window w = None) →
  activeFiles (get_state_snapshot ws now) = []
  ∧ ∀ p, p ≠ "" → view_holds ws p →
      count_path p (otherFiles (get_state_snapshot ws now)) = 1%nat.
Proof.
  intros Hnone. rewrite snapshot_activeFiles, snapshot_otherFiles.
  assert (Hactive : active_files (collect ws) = []).
  { rewrite collect_spec; simpl. rewrite filter_none; [done|].
    intros x Hx Hact. apply first_seen_elem in Hx as (Hx & p & Hp & _ & _).
    apply elem_of_occurrences in Hx as (w & Hw & Ha & _).
    unfold is_active in Hact. apply bool_decide_unpack in Hact.
    unfold holds_path in Hp. rewrite (Hnone w Hw) in Ha. congruence. }
  split; [done|]. intros p Hp Hheld.
  pose proof (count_once ws p Hp Hheld) as Hone.
  rewrite Hactive in Hone. exact Hone.
Qed.

(** * More on the request handler *)

Lemma substring_prefix (s extra : string) : ∀ n,
  (n ≤ String.length s)%nat →
  substring 0 n (s +:+ extra) = substring 0 n s.
Proof.
  induction s as [|c s IH]; intros n Hn; simpl in Hn.
  - assert (n = 0%nat) as -> by lia. by destruct extra.
  - destruct n as [|n]; [done|].
    change (String c s +:+ extra) with (String c (s +:+ extra)).
    simpl. rewrite IH by lia. done.
Qed.

Section MoreHandlerProperties.
Context `{PyRuntime}.
Variable windows : list Window.
Variable now : string.

Lemma eq_str_true v lit : eq_str v lit = true → v = JStr lit.
Proof.
  destruct v; try done. simpl. intros Heq. by apply bool_decide_eq_true_1 in Heq as ->.
Qed.

(** X6.  A response of [handle_mcp_request] is only given to a request that
    is an object; it has [jsonrpc] 2.0 and the [id] of the request, and
    it is either a result or the error of code -32601: the dispatcher
    returns no other error. *)
Theorem response_envelope request response :
  handle_mcp_request windows now request = Ok response →
  ∃ members,
    request = JObj members
    ∧ ((∃ res, response
               = JObj [("jsonrpc", JStr "2.0"); ("result", res);
                       ("id", dict_get members "id" JNull)])
       ∨ response
         = JObj [("jsonrpc", JStr "2.0");
                 ("error",
                  JObj [("code", JInt (-32601));
                        ("message",
                         JStr ("Method not found: "
                               +:+ py_str (dict_get members "method" JNull)))]);
                 ("id", dict_get members "id" JNull)]).
Proof.
  destruct request as [| | | | | |members]; try done.
  unfold handle_mcp_request. simpl. intros Hresp. exists members. split; [done|].
  destruct (eq_str (dict_get members "method" JNull) "initialize");
    [injection Hresp as <-; left; by eexists|].
  destruct (eq_str (dict_get members "method" JNull) "resources/list");
    [injection Hresp as <-; left; by eexists|].
  destruct (eq_str (dict_get members "method" JNull) "resources/read").
  - destruct (attr_get (dict_get members "params" (JObj []))) as [pm|e]; [|done].
    simpl in Hresp.
    destruct (get_resource_content windows now (dict_get pm "uri" JNull)); [|done].
    simpl in Hresp. injection Hresp as <-. left. by eexists.
  - injection Hresp as <-. by right.
Qed.

(** X7.  The outcomes of a POST request on a connection whose writes may
    raise.  Reading or decoding the body raises, or [json.loads] raises:
    nothing is sent and an exception leaves [do_POST].  The dispatcher
    returns: status 200 with its response, the header block in one
    write and the body in another.  When the write of the header block
    raises, its lines stay in the buffer and the handler of line 124
    starts the response with status 500 for that exception, whose
    header block goes out behind them; when the write of the body
    raises, the response with status 500 follows the header block of
    the 200.  The dispatcher raises: status 500 with the error of code
    -32603, the message of the exception, and the [id] of the request
    when it is an object, [null] otherwise.  A write of the response
    with status 500 that raises leaves [do_POST].  On a connection that
    takes every write, the last two cases send one status line, one
    header and one body, and [do_POST] returns; a status 200 says that
    the dispatcher returned, also when what it returned is an error
    response. *)
Theorem post_outcomes fate r events outcome :
  serve_POST_on windows now fate r = (events, outcome) →
  (∃ e, read_body r = Raise e ∧ events = [] ∧ outcome = Raise e)
  ∨ (∃ body e,
       read_body r = Ok body ∧ json_loads body = Raise e ∧ events = []
       ∧ outcome = Raise (Exn UnboundLocalError
                            "local variable 'request' referenced before assignment"))
  ∨ (∃ body request response,
       read_body r = Ok body ∧ json_loads body = Ok request
       ∧ handle_mcp_request windows now request = Ok response
       ∧ (events, outcome)
         = match fate with
           | Some e :: rest =>
             delivered rest
               [SendResponse 200; SendHeader "Content-type" "application/json";
                EndHeaders]
               500 (internal_error e request)
           | None :: Some e :: rest =>
             let '(sent, result) :=
               delivered rest [] 500 (internal_error e request) in
             ([SendResponse 200; SendHeader "Content-type" "application/json";
               EndHeaders] ++ sent, result)
           | _ =>
             ([SendResponse 200; SendHeader "Content-type" "application/json";
               EndHeaders; WfileWrite (json_dumps None response)], Ok tt)
           end)
  ∨ (∃ body request e,
       read_body r = Ok body ∧ json_loads body = Ok request
       ∧ handle_mcp_request windows now request = Raise e
       ∧ (events, outcome)
         = match fate with
           | Some e' :: _ => ([], Raise e')
           | None :: Some e' :: _ =>
             ([SendResponse 500; SendHeader "Content-type" "application/json";
               EndHeaders], Raise e')
           | _ =>
             ([SendResponse 500; SendHeader "Content-type" "application/json";
               EndHeaders;
               WfileWrite (json_dumps None
                 (JObj [("jsonrpc", JStr "2.0");
                        ("error", JObj [("code", JInt (-32603));
                                        ("message", JStr (message e))]);
                        ("id", field "id" request)]))], Ok tt)
           end).
Proof.
  intros Hserve.
  destruct (read_body r) as [body|e] eqn:Hbody.
  - rewrite (serve_POST_on_body windows now fate r body Hbody) in Hserve.
    destruct (json_loads body) as [request|e] eqn:Hparse.
    + destruct (handle_mcp_request windows now request) as [response|e] eqn:Hhandle.
      * rewrite (respond_ok_on windows now fate body request response Hparse Hhandle)
          in Hserve.
        right; right; left. exists body, request, response.
        split; [done|]. split; [done|]. split; [done|]. by rewrite <- Hserve.
      * rewrite (respond_handler_raises_on windows now fate body request e
                   Hparse Hhandle) in Hserve.
        right; right; right. exists body, request, e.
        split; [done|]. split; [done|]. split; [done|]. by rewrite <- Hserve.
    + rewrite (respond_parse_raises_on windows now fate body e Hparse) in Hserve.
      injection Hserve as <- <-. right; left. by exists body, e.
  - left. exists e. revert Hserve.
    unfold serve_POST_on, do_POST, mbind, M_bind, lift. rewrite Hbody.
    by intros [= <- <-].
Qed.

Lemma serve_POST_ok r body request response :
  read_body r = Ok body → json_loads body = Ok request →
  handle_mcp_request windows now request = Ok response →
  serve_POST windows now r
  = ([SendResponse 200; SendHeader "Content-type" "application/json";
      EndHeaders; WfileWrite (json_dumps None response)], Ok tt).
Proof.
  intros Hbody Hparse Hhandle.
  rewrite (serve_POST_body windows now r body Hbody).
  by rewrite (respond_ok windows now body request response Hparse Hhandle).
Qed.

(** X8.  [initialize] and [resources/list] are answered with status 200,
    the fixed result and the [id] of the request, whatever [params] is
    (it need not be an object). *)
Theorem post_handshake r body members :
  read_body r = Ok body → json_loads body = Ok (JObj members) →
  (dict_get members "method" JNull = JStr "initialize" →
   serve_POST windows now r
   = ([SendResponse 200; SendHeader "Content-type" "application/json"; EndHeaders;
       WfileWrite (json_dumps None
         (JObj [("jsonrpc", JStr "2.0");
                ("result",
                 JObj [("protocolVersion", JStr "2024-11-05");
                       ("capabilities", JObj [("resources", JObj [])]);
                       ("serverInfo",
                        JObj [("name", JStr "sublime-editor-context");
                              ("version", JStr "0.1.0")])]);
                ("id", dict_get members "id" JNull)]))],
      Ok tt))
  ∧ (dict_get members "method" JNull = JStr "resources/list" →
     serve_POST windows now r
     = ([SendResponse 200; SendHeader "Content-type" "application/json"; EndHeaders;
         WfileWrite (json_dumps None
           (JObj [("jsonrpc", JStr "2.0");
                  ("result",
                   JObj [("resources", JArr [
                     JObj [("uri", JStr "sublime-context://state");
                           ("name", JStr "Editor State");
                           ("description", JStr "Complete editor state with active files per window and other open files");
                           ("mimeType", JStr "application/json")]])]);
                  ("id", dict_get members "id" JNull)]))],
        Ok tt)).
Proof.
  intros Hbody Hparse. split; intros Hmethod;
    apply (serve_POST_ok r body (JObj members) _ Hbody Hparse);
    unfold handle_mcp_request; simpl; by rewrite Hmethod.
Qed.

(** X9.  Every resource that [resources/list] describes can be read: a
    [resources/read] request for its [uri] gets the snapshot, encoded
    with an indentation of 2, under the same [uri] and [mimeType]. *)
Theorem listed_resources_readable members response descriptor :
  dict_get members "method" JNull = JStr "resources/list" →
  handle_mcp_request windows now (JObj members) = Ok response →
  descriptor ∈ items (field "resources" (field "result" response)) →
  ∀ request_id,
    handle_mcp_request windows now
      (JObj [("method", JStr "resources/read");
             ("params", JObj [("uri", field "uri" descriptor)]);
             ("id", request_id)])
    = Ok (JObj [("jsonrpc", JStr "2.0");
                ("result", JObj [("contents", JArr [
                   JObj [("uri", field "uri" descriptor);
                         ("mimeType", field "mimeType" descriptor);
                         ("text",
                          JStr (json_dumps (Some 2%nat)
                                  (get_state_snapshot windows now)))]])]);
                ("id", request_id)]).
Proof.
  intros Hmethod. unfold handle_mcp_request. simpl. rewrite Hmethod. simpl.
  intros [= <-]. simpl. intros Hd.
  apply list_elem_of_singleton in Hd as ->. intros request_id. reflexivity.
Qed.

(** X10.  A [resources/read] request whose [params] is there and is not an
    object (for one, [null]) is answered with status 500 and the error
    of code -32603 that names the type of [params]; the [id] is kept. *)
Theorem read_params_not_object r body members :
  read_body r = Ok body → json_loads body = Ok (JObj members) →
  dict_get members "method" JNull = JStr "resources/read" →
  is_dict (dict_get members "params" (JObj [])) = false →
  serve_POST windows now r
  = ([SendResponse 500; SendHeader "Content-type" "application/json"; EndHeaders;
      WfileWrite (json_dumps None
        (JObj [("jsonrpc", JStr "2.0");
               ("error",
                JObj [("code", JInt (-32603));
                      ("message",
                       JStr ("'" +:+ type_name (dict_get members "params" (JObj []))
                             +:+ "' object has no attribute 'get'"))]);
               ("id", dict_get members "id" JNull)]))],
     Ok tt).
Proof.
  intros Hbody Hparse Hmethod Hparams.
  assert (Hraise : handle_mcp_request windows now (JObj members)
    = Raise (Exn AttributeError
               ("'" +:+ type_name (dict_get members "params" (JObj []))
                +:+ "' object has no attribute 'get'"))).
  { unfold handle_mcp_request. simpl. rewrite Hmethod. simpl.
    by destruct (dict_get members "params" (JObj [])). }
  rewrite (serve_POST_body windows now r body Hbody).
  by rewrite (respond_handler_raises windows now body _ _ Hparse Hraise).
Qed.

(** X11.  A request object with a method that the dispatcher does not know
    is answered with status 200: the error of code -32601 travels as a
    response of the dispatcher. *)
Theorem post_unknown_method r body members :
  read_body r = Ok body → json_loads body = Ok (JObj members) →
  dict_get members "method" JNull ≠ JStr "initialize" →
  dict_get members "method" JNull ≠ JStr "resources/list" →
  dict_get members "method" JNull ≠ JStr "resources/read" →
  serve_POST windows now r
  = ([SendResponse 200; SendHeader "Content-type" "application/json"; EndHeaders;
      WfileWrite (json_dumps None
        (JObj [("jsonrpc", JStr "2.0");
               ("error",
                JObj [("code", JInt (-32601));
                      ("message",
                       JStr ("Method not found: "
                             +:+ py_str (dict_get members "method" JNull)))]);
               ("id", dict_get members "id" JNull)]))],
     Ok tt).
Proof.
  intros Hbody Hparse H1 H2 H3.
  apply (serve_POST_ok r body (JObj members) _ Hbody Hparse).
  unfold handle_mcp_request. simpl. by rewrite !eq_str_false.
Qed.

(** X12.  Without a [Content-Length] header the body is empty, whatever
    the client sent.  With one that announces [n] bytes that are there,
    the body is the first [n] bytes: what follows them, and the path of
    the request, do not change the answer. *)
Theorem post_reads_announced_bytes r :
  (headers_get (headers r) "Content-Length" = None →
   read_body r = decode_utf8 "")
  ∧ (∀ s n extra other_path,
       headers_get (headers r) "Content-Length" = Some s → py_int s = Ok n →
       0 ≤ n ≤ Z.of_nat (String.length (rfile r)) →
       read_body r = decode_utf8 (substring 0 (Z.to_nat n) (rfile r))
       ∧ serve_POST windows now
           {| path := other_path; headers := headers r;
              rfile := rfile r +:+ extra |}
         = serve_POST windows now r).
Proof.
  split.
  - intros Hnone. unfold read_body. rewrite Hnone.
    change (decode_utf8 (substring 0 0 (rfile r)) = decode_utf8 "").
    by destruct (rfile r).
  - intros s n extra other_path Hsome Hint Hn.
    assert (Hread : ∀ data, read_body {| path := other_path; headers := headers r;
                                         rfile := data |}
                            = decode_utf8 (rfile_read data n)).
    { intros data. unfold read_body. simpl. rewrite Hsome, Hint. reflexivity. }
    assert (Hr : read_body r = decode_utf8 (rfile_read (rfile r) n)).
    { unfold read_body. rewrite Hsome, Hint. reflexivity. }
    assert (Hnn : (n <? 0) = false) by (apply Z.ltb_ge; lia).
    split.
    + rewrite Hr. unfold rfile_read. by rewrite Hnn.
    + unfold serve_POST, do_POST, mbind, M_bind, lift.
      rewrite Hread, Hr. unfold rfile_read. rewrite Hnn.
      rewrite substring_prefix by lia. reflexivity.
Qed.


(** X14.  The debug command fills a new scratch buffer with the text that
    [resources/read] returns for the state resource; on a view without
    a window it asks nothing of the host. *)
Theorem show_state_matches_resource window text :
  get_resource_content windows now (JStr "sublime-context://state") = Ok text →
  run (Some window) windows now
  = [NewFile; SetName "Editor Context State"; SetScratch true;
     SetSyntaxFile "Packages/JavaScript/JSON.sublime-syntax";
     RunCommand "append" (JObj [("characters", JStr text)])]
  ∧ run None windows now = [].
Proof. intros [= <-]. done. Qed.

End MoreHandlerProperties.

(** * More on the life cycle *)

Section MoreLifeCycle.
Context `{Kernel}.


Lemma vacant_range p o : vacant o p = true → 1 ≤ p ≤ 65535.
Proof.
  unfold vacant. intros Hv.
  apply andb_true_iff in Hv as [Hv _]. apply andb_true_iff in Hv as [Hv _].
  apply andb_true_iff in Hv as [H1 H2]. apply Z.leb_le in H1, H2. lia.
Qed.



Lemma bound_port_in_use p o : p ≠ 0 → p ∈ in_use o → bound_port p o = None.
Proof.
  intros Hp Hin. unfold bound_port, vacant.
  rewrite (proj2 (Z.eqb_neq p 0)) by done.
  rewrite (bool_decide_eq_true_2 _ Hin). simpl. by rewrite andb_false_r.
Qed.

Lemma bound_port_range p o q :
  bound_port p o = Some q → 1 ≤ q ≤ 65535 ∧ (p ≠ 0 → q = p).
Proof.
  unfold bound_port. destruct (p =? 0) eqn:Hzero.
  - apply Z.eqb_eq in Hzero.
    destruct (ephemeral_port o) as [chosen|]; [|done].
    destruct (vacant o chosen) eqn:Hv; [|done]. intros [= ->].
    split; [by apply (vacant_range q o)|done].
  - destruct (vacant o p) eqn:Hv; [|done]. intros [= ->].
    split; [by apply (vacant_range q o)|done].
Qed.

(** A line printed before does not change what the constructor does for
    a fixed port. *)
Lemma TCPServer_new_printed p o line e :
  p ≠ 0 →
  TCPServer_new ("127.0.0.1", p) o = (o, Raise e) →
  TCPServer_new ("127.0.0.1", p) (printed o line) = (printed o line, Raise e).
Proof.
  intros Hp.
  unfold TCPServer_new, server_bind, bind, hold, mbind, M_bind, get_state,
    lift, modify, mret, M_ret. simpl.
  rewrite (proj2 (Z.eqb_neq p 0)) by done.
  destruct ((p <? 0) || (65535 <? p)); simpl; [congruence|].
  destruct (bool_decide (p ∈ in_use o)
            || bool_decide (p ∈ in_teardown o) && true); simpl; congruence.
Qed.

(** The four ways through [start]. *)
Lemma start_cases me o :
  (running me = true ∧ start (me, o) = ((me, o), Ok tt))
  ∨ (running me = false ∧ bound_port (port me) o = None ∧
     ∃ e, TCPServer_new ("127.0.0.1", port me) o = (o, Raise e)
          ∧ start (me, o)
            = ((me, printed o ("EditorContextMCP: Failed to start server: "
                               +:+ message e)), Ok tt))
  ∨ (∃ q, running me = false ∧ bound_port (port me) o = Some q
          ∧ threads_left o = true ∧
     start (me, o)
     = (({| port := port me; server := Some (listener q);
            thread := Some {| daemon := true; alive := true |};
            running := true |},
         printed (holding q o)
           ("EditorContextMCP: Server started on http://127.0.0.1:"
            +:+ pretty (port me))), Ok tt))
  ∨ (∃ q, running me = false ∧ bound_port (port me) o = Some q
          ∧ threads_left o = false ∧
     start (me, o)
     = (({| port := port me; server := Some (listener q);
            thread := Some {| daemon := true; alive := false |};
            running := true |},
         printed (holding q o)
           "EditorContextMCP: Failed to start server: can't start new thread"),
        Ok tt)).
Proof.
  destruct (running me) eqn:Hrun; [left; split; [done|by apply start_running]|].
  right. pose proof (TCPServer_new_spec (port me) o) as Hnew.
  destruct (bound_port (port me) o) as [q|] eqn:Hcan.
  - right.
    assert (Hstart : ∀ w, start (me, o) = w ↔
      (let '(o1, r) := Thread_start {| daemon := true; alive := false |}
                         (holding q o) in
       match r with
       | Ok t =>
         (({| port := port me; server := Some (listener q);
              thread := Some t; running := true |},
           printed o1 ("EditorContextMCP: Server started on http://127.0.0.1:"
                       +:+ pretty (port me))), Ok tt)
       | Raise e =>
         (({| port := port me; server := Some (listener q);
              thread := Some {| daemon := true; alive := false |};
              running := true |},
           printed o1 ("EditorContextMCP: Failed to start server: "
                       +:+ message e)), Ok tt)
       end) = w).
    { intros w. unfold start, self, mbind, M_bind. simpl. rewrite Hrun.
      unfold try_except, in_os, mbind, M_bind. simpl. rewrite Hnew. simpl.
      by destruct (Thread_start _ _) as [o1 [t|e]]. }
    unfold Thread_start, mbind, M_bind, get_state in Hstart. simpl in Hstart.
    destruct (threads_left o) eqn:Hthreads; [left|right]; exists q;
      (split; [done|]); (split; [done|]); (split; [done|]);
      by apply Hstart.
  - left. split; [done|]. split; [done|]. destruct Hnew as [e Hnew].
    exists e. split; [done|]. by apply (start_bind_fails me o o e).
Qed.



(** X17.  [start] right after [start].  When the first call left the
    instance running, the second does nothing at all.  When it did not,
    on an instance made for a port other than 0, the first call has
    only printed one line, the failure, and the second only prints that
    line again: the instance, the ports and [threads_left] are as
    before the first call. *)
Theorem second_start_changes_nothing w w1 r1 :
  start w = (w1, r1) →
  (running w1.1 = true → start w1 = (w1, Ok tt))
  ∧ (running w1.1 = false → port w.1 ≠ 0 →
     ∃ line,
       w1 = (w.1,
             {| in_use := in_use w.2; in_teardown := in_teardown w.2;
                threads_left := threads_left w.2;
                console := console w.2 ++ [line] |})
       ∧ start w1
         = ((w.1,
             {| in_use := in_use w.2; in_teardown := in_teardown w.2;
                threads_left := threads_left w.2;
                console := console w.2 ++ [line; line] |}),
            Ok tt)).
Proof.
  destruct w as [me o]. intros Hstart. split.
  { intros Hrun. destruct w1 as [me1 o1]. by apply start_running. }
  intros Hdown Hport. simpl in Hport.
  destruct (start_cases me o)
    as [[Hrun Heq]|[(Hrun & Hcan & e & Hnew & Heq)
                   |[(q & _ & _ & _ & Heq)|(q & _ & _ & _ & Heq)]]];
    rewrite Heq in Hstart; injection Hstart as <- <-; simpl in Hdown;
    try congruence.
  exists ("EditorContextMCP: Failed to start server: " +:+ message e).
  split; [done|]. simpl.
  pose proof (TCPServer_new_printed (port me) o
    ("EditorContextMCP: Failed to start server: " +:+ message e) e Hport Hnew)
    as Hagain.
  rewrite (start_bind_fails me _ _ e Hrun Hagain).
  unfold printed. simpl. by rewrite <- app_assoc.
Qed.

Lemma stop_unfold me o :
  stop (me, o)
  = match server me with
    | Some _ =>
      if shutdown_returns me then
        Some (({| port := port me; server := server me; thread := thread me;
                  running := false |},
               printed o "EditorContextMCP: Server stopped"), Ok tt)
      else None
    | None => Some ((me, o), Ok tt)
    end.
Proof. reflexivity. Qed.



Lemma start_consistent p w w' r :
  consistent p w → start w = (w', r) → consistent p w'.
Proof.
  destruct w as [me o]. intros (Hport & Hrun & Hsrv & Hnone) Hstart. simpl in *.
  assert (Hup : ∀ q t line,
    bound_port (port me) o = Some q →
    consistent p ({| port := port me; server := Some (listener q);
                     thread := t; running := true |},
                  printed (holding q o) line)).
  { intros q t line Hq. destruct (bound_port_range _ _ _ Hq) as [Hrange Hfixed].
    unfold consistent. simpl.
    split; [done|]. split; [by eexists|]. split; [|done].
    intros s [= <-]. exists q. split; [done|]. split; [done|].
    split; [by rewrite <- Hport|]. apply list_elem_of_here. }
  destruct (start_cases me o)
    as [[_ Heq]|[(_ & _ & e & _ & Heq)
                |[(q & _ & Hq & _ & Heq)|(q & _ & Hq & _ & Heq)]]];
    rewrite Heq in Hstart; injection Hstart as <- <-; try (by apply Hup);
    unfold consistent; simpl; done.
Qed.

Lemma stop_consistent p w w' r :
  consistent p w → stop w = Some (w', r) → consistent p w'.
Proof.
  destruct w as [me o]. intros (Hport & Hrun & Hsrv & Hnone).
  rewrite stop_unfold. simpl in *.
  destruct (server me) as [s|] eqn:Hserver.
  - destruct (shutdown_returns me); [|done]. intros [= <- <-].
    unfold consistent. simpl.
    split; [done|]. split; [done|]. split; [|done].
    intros s' [= <-]. by apply Hsrv.
  - intros [= <- <-]. unfold consistent. simpl. by rewrite Hserver.
Qed.

Lemma reachable_consistent p w : reachable p w → consistent p w.
Proof.
  induction 1 as [o|w w' r _ IH Hstart|w w' r _ IH Hstop|me o o' _ IH Henv].
  - unfold consistent. simpl. by repeat split.
  - by apply (start_consistent p w w' r).
  - by apply (stop_consistent p w w' r).
  - destruct IH as (Hport & Hrun & Hsrv & Hnone). unfold consistent. simpl in *.
    split; [done|]. split; [done|]. split; [|done].
    intros s Hs. destruct (Hsrv s Hs) as (q & -> & Hrange & Hfixed & Hin).
    exists q. split; [done|]. split; [done|]. split; [done|].
    by apply (Henv (listener q) ("127.0.0.1", q)).
Qed.

(** X19.  In every state that [start], [stop] and the rest of the system
    lead to from a fresh instance: the port is the one given to
    [__init__]; a running instance has a server; a server is bound to
    a port from 1 to 65535 of the loopback address, which is the port
    of the instance unless that is 0, it listens, has
    [allow_reuse_address] set and [SO_REUSEADDR] off, and its port is in
    use; an instance without server has no thread and is not running. *)
Theorem reachable_invariant p me o :
  reachable p (me, o) →
  port me = p
  ∧ (running me = true → ∃ srv, server me = Some srv)
  ∧ (∀ srv, server me = Some srv →
       ∃ q, bound_for q srv ∧ 1 ≤ q ≤ 65535 ∧ (p ≠ 0 → q = p)
            ∧ allow_reuse_address srv = true
            ∧ so_reuseaddr (sock srv) = false ∧ q ∈ in_use o)
  ∧ (server me = None → thread me = None ∧ running me = false).
Proof.
  intros Hreach. destruct (reachable_consistent p _ Hreach) as (Hport & Hrun & Hsrv & Hnone).
  simpl in *. split; [done|]. split; [|split; [|done]].
  - intros Hr. destruct (Hrun Hr) as [srv Hs]. by exists srv.
  - intros srv Hs. destruct (Hsrv srv Hs) as (q & -> & Hrange & Hfixed & Hin).
    exists q. unfold bound_for. simpl. done.
Qed.

(** X20.  Once an instance made for a port other than 0 has a server,
    [start] neither replaces it nor changes [running] or the ports: the
    instance comes up at most once. *)
Theorem brought_up_at_most_once p me o srv me' o' r :
  p ≠ 0 →
  reachable p (me, o) → server me = Some srv →
  start (me, o) = ((me', o'), r) →
  server me' = Some srv ∧ running me' = running me ∧ in_use o' = in_use o.
Proof.
  intros Hp Hreach Hserver Hstart.
  destruct (reachable_consistent p _ Hreach) as (Hport & _ & Hsrv & _). simpl in *.
  destruct (Hsrv srv Hserver) as (q & _ & _ & Hfixed & Hin).
  rewrite (Hfixed Hp), <- Hport in Hin. rewrite <- Hport in Hp.
  pose proof (bound_port_in_use (port me) o Hp Hin) as Hcan.
  destruct (start_cases me o)
    as [[_ Heq]|[(_ & _ & e & _ & Heq)|[(? & _ & ? & _)|(? & _ & ? & _)]]];
    try congruence;
    rewrite Heq in Hstart; injection Hstart as <- <- <-; done.
Qed.


End MoreLifeCycle.

(** * The further theorems at the sample inputs *)

Lemma snapshot_without_files_witness :
  activeFiles (get_state_snapshot
                 [{| folders := ["/work"]; active_view := Some Sample.untitled;
                     views := [Sample.untitled] |}] Sample.clock) = []
  ∧ otherFiles (get_state_snapshot
                  [{| folders := ["/work"]; active_view := Some Sample.untitled;
                      views := [Sample.untitled] |}] Sample.clock) = [].
Proof.
  destruct (snapshot_without_files
              [{| folders := ["/work"]; active_view := Some Sample.untitled;
                  views := [Sample.untitled] |}] Sample.clock) as (Ha & Ho & _).
  - intros w v Hw Hv. apply list_elem_of_singleton in Hw as ->.
    apply list_elem_of_singleton in Hv as ->. by left.
  - by split.
Defined.

Lemma shared_active_file_witness :
  activeFiles (get_state_snapshot [Cases.mirror_window; Cases.split_window]
                 Sample.clock)
  = [JObj [("path", JStr "/work/app/main.py");
           ("selection", selection_info Sample.main_py_clone)]]
  ∧ count_path "/work/app/main.py"
      (otherFiles (get_state_snapshot [Cases.mirror_window; Cases.split_window]
                     Sample.clock)) = 0%nat.
Proof.
  apply (shared_active_file Cases.split_window Cases.mirror_window
           "/work/app/main.py" Sample.clock
           [Sample.util_py] Sample.main_py_clone [Sample.main_py]);
    [reflexivity|reflexivity|discriminate|reflexivity|reflexivity|].
  intros u Hu. apply elem_of_cons in Hu as [->|Hu]; [discriminate|].
  by apply elem_of_nil in Hu.
Defined.

Lemma no_focused_file_witness :
  activeFiles (get_state_snapshot [Cases.scratch_window] Sample.clock) = []
  ∧ count_path "/work/notes.md"
      (otherFiles (get_state_snapshot [Cases.scratch_window] Sample.clock)) = 1%nat.
Proof.
  destruct (no_focused_file [Cases.scratch_window] Sample.clock) as [Hactive Hother].
  - intros w Hw. by apply list_elem_of_singleton in Hw as ->.
  - split; [exact Hactive|]. apply Hother; [discriminate|].
    exists Cases.scratch_window, Sample.notes_md.
    split; [apply list_elem_of_here|].
    split; [apply list_elem_of_further, list_elem_of_here|reflexivity].
Defined.

Lemma response_envelope_witness :
  ∃ members,
    Cases.list_resources = JObj members
    ∧ ((∃ res, success resources_list_result (JStr "a")
               = JObj [("jsonrpc", JStr "2.0"); ("result", res);
                       ("id", dict_get members "id" JNull)])
       ∨ success resources_list_result (JStr "a")
         = JObj [("jsonrpc", JStr "2.0");
                 ("error",
                  JObj [("code", JInt (-32601));
                        ("message",
                         JStr ("Method not found: "
                               +:+ @py_str Cases.runtime
                                     (dict_get members "method" JNull)))]);
                 ("id", dict_get members "id" JNull)]).
Proof.
  apply (@response_envelope Cases.runtime Sample.windows Sample.clock
           Cases.list_resources (success resources_list_result (JStr "a"))).
  reflexivity.
Defined.

Lemma post_outcomes_witness :
  ∃ request response,
    json_loads (Sample.dumps Sample.foo_bar) = Ok request
    ∧ handle_mcp_request Sample.windows Sample.clock request = Ok response
    ∧ serve_POST_on Sample.windows Sample.clock [None; Some broken_pipe]
        (Sample.post (Sample.dumps Sample.foo_bar))
      = ([SendResponse 200; SendHeader "Content-type" "application/json";
          EndHeaders;
          SendResponse 500; SendHeader "Content-type" "application/json";
          EndHeaders;
          WfileWrite (internal_error broken_pipe request)],
         Ok tt).
Proof.
  destruct (post_outcomes Sample.windows Sample.clock [None; Some broken_pipe]
              (Sample.post (Sample.dumps Sample.foo_bar)) _ _
              (surjective_pairing _))
    as [(e & Hbody & _)|[(body & e & Hbody & Hparse & _)
       |[(body & request & response & Hbody & Hparse & Hhandle & Hsent)
        |(body & request & e & Hbody & Hparse & Hhandle & _)]]].
  - vm_compute in Hbody. discriminate.
  - vm_compute in Hbody. injection Hbody as <-.
    vm_compute in Hparse. discriminate.
  - vm_compute in Hbody. injection Hbody as <-.
    exists request, response. split; [exact Hparse|]. split; [exact Hhandle|].
    rewrite (surjective_pairing (serve_POST_on _ _ _ _)). exact Hsent.
  - vm_compute in Hbody. injection Hbody as <-.
    vm_compute in Hparse. injection Hparse as <-.
    vm_compute in Hhandle. discriminate.
Defined.

Lemma post_handshake_witness :
  @serve_POST Cases.runtime Sample.windows Sample.clock
    (Sample.post (Sample.dumps Cases.initialize))
  = ([SendResponse 200; SendHeader "Content-type" "application/json"; EndHeaders;
      WfileWrite (Sample.dumps
        (JObj [("jsonrpc", JStr "2.0");
               ("result",
                JObj [("protocolVersion", JStr "2024-11-05");
                      ("capabilities", JObj [("resources", JObj [])]);
                      ("serverInfo",
                       JObj [("name", JStr "sublime-editor-context");
                             ("version", JStr "0.1.0")])]);
               ("id", JInt 1)]))],
     Ok tt).
Proof.
  destruct (@post_handshake Cases.runtime Sample.windows Sample.clock
              (Sample.post (Sample.dumps Cases.initialize))
              (Sample.dumps Cases.initialize)
              [("jsonrpc", JStr "2.0"); ("method", JStr "initialize");
               ("params", JArr []); ("id", JInt 1)])
    as [Hinit _]; [vm_compute; reflexivity ..|].
  apply Hinit. reflexivity.
Defined.

Lemma listed_resources_readable_witness :
  @handle_mcp_request Cases.runtime Sample.windows Sample.clock
    (JObj [("method", JStr "resources/read");
           ("params", JObj [("uri", JStr "sublime-context://state")]);
           ("id", JInt 2)])
  = Ok (JObj [("jsonrpc", JStr "2.0");
              ("result", JObj [("contents", JArr [
                 JObj [("uri", JStr "sublime-context://state");
                       ("mimeType", JStr "application/json");
                       ("text",
                        JStr (Sample.dumps
                                (get_state_snapshot Sample.windows Sample.clock)))]])]);
              ("id", JInt 2)]).
Proof.
  apply (@listed_resources_readable Cases.runtime Sample.windows Sample.clock
           [("jsonrpc", JStr "2.0"); ("method", JStr "resources/list");
            ("id", JStr "a")]
           (success resources_list_result (JStr "a"))
           (JObj [("uri", JStr "sublime-context://state");
                  ("name", JStr "Editor State");
                  ("description", JStr "Complete editor state with active files per window and other open files");
                  ("mimeType", JStr "application/json")])
           eq_refl eq_refl (list_elem_of_here _ _) (JInt 2)).
Defined.

Lemma read_params_not_object_witness :
  @serve_POST Cases.runtime Sample.windows Sample.clock
    (Sample.post (Sample.dumps Cases.read_null_params))
  = ([SendResponse 500; SendHeader "Content-type" "application/json"; EndHeaders;
      WfileWrite (Sample.dumps
        (JObj [("jsonrpc", JStr "2.0");
               ("error",
                JObj [("code", JInt (-32603));
                      ("message",
                       JStr "'NoneType' object has no attribute 'get'")]);
               ("id", JInt 9)]))],
     Ok tt).
Proof.
  pose proof (@read_params_not_object Cases.runtime Sample.windows Sample.clock
                (Sample.post (Sample.dumps Cases.read_null_params))
                (Sample.dumps Cases.read_null_params)
                [("method", JStr "resources/read"); ("params", JNull); ("id", JInt 9)])
    as Hserve.
  assert (Hbody : @read_body Cases.runtime
                    (Sample.post (Sample.dumps Cases.read_null_params))
                  = Ok (Sample.dumps Cases.read_null_params))
    by (vm_compute; reflexivity).
  assert (Hparse : @json_loads Cases.runtime (Sample.dumps Cases.read_null_params)
                   = Ok (JObj [("method", JStr "resources/read"); ("params", JNull);
                               ("id", JInt 9)]))
    by (vm_compute; reflexivity).
  exact (Hserve Hbody Hparse eq_refl eq_refl).
Defined.

Lemma post_unknown_method_witness :
  serve_POST Sample.windows Sample.clock (Sample.post (Sample.dumps Sample.foo_bar))
  = ([SendResponse 200; SendHeader "Content-type" "application/json"; EndHeaders;
      WfileWrite (Sample.dumps
        (JObj [("jsonrpc", JStr "2.0");
               ("error",
                JObj [("code", JInt (-32601));
                      ("message", JStr "Method not found: foo/bar")]);
               ("id", JInt 42)]))],
     Ok tt).
Proof.
  pose proof (post_unknown_method Sample.windows Sample.clock
                (Sample.post (Sample.dumps Sample.foo_bar))
                (Sample.dumps Sample.foo_bar)
                [("method", JStr "foo/bar"); ("id", JInt 42)]) as Hserve.
  assert (Hbody : read_body (Sample.post (Sample.dumps Sample.foo_bar))
                  = Ok (Sample.dumps Sample.foo_bar)) by (vm_compute; reflexivity).
  assert (Hparse : json_loads (Sample.dumps Sample.foo_bar)
                   = Ok (JObj [("method", JStr "foo/bar"); ("id", JInt 42)]))
    by (vm_compute; reflexivity).
  specialize (Hserve Hbody Hparse).
  exact (Hserve ltac:(discriminate) ltac:(discriminate) ltac:(discriminate)).
Defined.

Lemma post_reads_announced_bytes_witness :
  serve_POST Sample.windows Sample.clock
    {| path := "/mcp"; headers := headers (Sample.post "[1, 2]");
       rfile := "[1, 2]" +:+ "trailing bytes" |}
  = serve_POST Sample.windows Sample.clock (Sample.post "[1, 2]").
Proof.
  destruct (post_reads_announced_bytes Sample.windows Sample.clock
              (Sample.post "[1, 2]")) as [_ Hsome].
  apply (Hsome "6" 6 "trailing bytes" "/mcp"); [reflexivity|reflexivity|].
  simpl. lia.
Defined.


Lemma show_state_matches_resource_witness :
  run (Some Sample.W1) Sample.windows Sample.clock
  = [NewFile; SetName "Editor Context State"; SetScratch true;
     SetSyntaxFile "Packages/JavaScript/JSON.sublime-syntax";
     RunCommand "append"
       (JObj [("characters",
               JStr (Sample.dumps (get_state_snapshot Sample.windows Sample.clock)))])]
  ∧ run None Sample.windows Sample.clock = [].
Proof.
  exact (show_state_matches_resource Sample.windows Sample.clock Sample.W1
           (Sample.dumps (get_state_snapshot Sample.windows Sample.clock)) eq_refl).
Defined.



Lemma second_start_changes_nothing_witness :
  start (MCPServer_init 8765,
         {| in_use := []; in_teardown := [8765]; threads_left := true;
            console := ["EditorContextMCP: Failed to start server: [Errno 98] Address already in use"] |})
  = ((MCPServer_init 8765,
      {| in_use := []; in_teardown := [8765]; threads_left := true;
         console := ["EditorContextMCP: Failed to start server: [Errno 98] Address already in use";
                     "EditorContextMCP: Failed to start server: [Errno 98] Address already in use"] |}),
     Ok tt).
Proof.
  destruct (second_start_changes_nothing
              (MCPServer_init 8765, Sample.restarting)
              (start (MCPServer_init 8765, Sample.restarting)).1
              (start (MCPServer_init 8765, Sample.restarting)).2 eq_refl)
    as [_ Hdown].
  destruct (Hdown eq_refl) as (line & Hfirst & Hsecond); [done|].
  vm_compute in Hfirst. injection Hfirst as <-. exact Hsecond.
Defined.


Lemma sample_reachable : reachable 8765 Cases.stopped.
Proof.
  eapply reach_stop; [eapply reach_start; [apply (reach_init 8765 Sample.idle)|]|];
    reflexivity.
Defined.

Lemma reachable_invariant_witness :
  ∃ q, bound_for q (listener 8765) ∧ 1 ≤ q ≤ 65535 ∧ q ∈ [8765].
Proof.
  destruct (reachable_invariant 8765 Cases.stopped.1 Cases.stopped.2 sample_reachable)
    as (_ & _ & Hsrv & _).
  destruct (Hsrv (listener 8765) eq_refl) as (q & Hbound & Hrange & _ & _ & _ & Hin).
  by exists q.
Defined.

Lemma brought_up_at_most_once_witness :
  server (start Cases.stopped).1.1 = Some (listener 8765)
  ∧ running (start Cases.stopped).1.1 = false
  ∧ in_use (start Cases.stopped).1.2 = [8765].
Proof.
  assert (Hp : 8765 ≠ 0) by done.
  apply (brought_up_at_most_once 8765 Cases.stopped.1 Cases.stopped.2
           (listener 8765) _ _ (start Cases.stopped).2 Hp sample_reachable eq_refl).
  reflexivity.
Defined.

